(** * snap-bootstrap [initramfs-mounts]: boot-mode detection and mount-tuple
    generation

    A shallow embedding of [cmd/snap-bootstrap/cmd_initramfs_mounts.go]:
    the kernel command line parser [whichModeAndRecoverSystem], the mode
    generators [generateMountsModeInstall], [generateMountsModeRecover],
    [generateMountsModeRun] and the entry point [generateInitramfsMounts].

    Go strings are byte strings and are modelled by [string]; the writes to
    [stdout] and the write of the modeenv file are threaded through an
    explicit world; every collaborator that lives outside the file (the mount
    probe, the seed loader, the snap reader, the modeenv reader and writer,
    the read of [/proc/cmdline]) is a field of an environment record. *)

From Stdlib Require Import Ascii NArith.
From stdpp Require Import base option list strings gmap.

(** ** Errors

    One constructor per [fmt.Errorf] of the file, one for [bufio.ErrTooLong],
    and one for the errors handed back by collaborators, which the file
    returns unchanged. *)
Inductive error : Type :=
  | ErrUnknownMode (mode : string)
      (* fmt.Errorf("cannot use unknown mode %q", mode) *)
  | ErrCannotDetect
      (* fmt.Errorf("cannot detect mode nor recovery system to use") *)
  | ErrRecoverNotImplemented
      (* fmt.Errorf("recover mode mount generation not implemented yet") *)
  | ErrModeNotHandled
      (* fmt.Errorf("internal error: mode in generateInitramfsMounts not handled") *)
  | ErrTooLong
      (* bufio.ErrTooLong *)
  | ErrOther (msg : string).
      (* an error value produced by a collaborator *)

(** The text of an error, [err.Error()].  [quote] stands for the [%q] verb
    ([strconv.Quote]). *)
Definition Error (quote : string → string) (e : error) : string :=
  match e with
  | ErrUnknownMode mode => "cannot use unknown mode " +:+ quote mode
  | ErrCannotDetect => "cannot detect mode nor recovery system to use"
  | ErrRecoverNotImplemented => "recover mode mount generation not implemented yet"
  | ErrModeNotHandled => "internal error: mode in generateInitramfsMounts not handled"
  | ErrTooLong => "bufio.Scanner: token too long"
  | ErrOther msg => msg
  end.

(** ** The pieces of Go's [strings] and [strutil] packages that are used *)
Module strings.

(** [strings.HasPrefix(s, prefix)] *)
Definition HasPrefix (s prefix : string) : bool := String.prefix prefix s.

(** [strings.SplitN(s, sep, 2)] for a one-byte separator: cut at the first
    separator, or the whole of [s] when there is none. *)
Fixpoint cut (sep : ascii) (s : string) : option (string * string) :=
  match s with
  | EmptyString => None
  | String c r =>
      if Ascii.eqb c sep then Some (EmptyString, r)
      else match cut sep r with
           | Some (a, b) => Some (String c a, b)
           | None => None
           end
  end.

Definition SplitN2 (s : string) (sep : ascii) : list string :=
  match cut sep s with
  | Some (a, b) => [a; b]
  | None => [s]
  end.

End strings.

Module strutil.

(** [strutil.ListContains(list, str)] *)
Definition ListContains (l : list string) (str : string) : bool :=
  existsb (String.eqb str) l.

End strutil.

(** ** [bufio.Scanner] with [bufio.ScanWords] over an in-memory buffer

    The scanner hands out the maximal runs of bytes that hold no white-space
    rune.  White space is what [bufio.isSpace] accepts on the runes decoded by
    [utf8.DecodeRune]; all of these runes have a one, two or three byte
    encoding that starts with a byte that is never a continuation byte, so
    they are recognised on the bytes directly.  A word which, together with
    the rune that ends it, does not fit the scanner's buffer of
    [MaxScanTokenSize] bytes stops the scan with [ErrTooLong]. *)
Module bufio.

Local Open Scope N_scope.

Definition MaxScanTokenSize : N := 64 * 1024.

Definition byte (s : string) : option N :=
  match s with
  | EmptyString => None
  | String c _ => Some (N_of_ascii c)
  end.

Definition tail (s : string) : string :=
  match s with
  | EmptyString => EmptyString
  | String _ r => r
  end.

(** The width in bytes of the white-space rune at the head of [s], if
    there is one there.
    [' ', '\t', '\n', '\v', '\f', '\r'];
    U+0085 (C2 85), U+00A0 (C2 A0); U+1680 (E1 9A 80);
    U+2000..U+200A (E2 80 80 .. E2 80 8A); U+2028, U+2029, U+202F
    (E2 80 A8, E2 80 A9, E2 80 AF); U+205F (E2 81 9F); U+3000 (E3 80 80). *)
Definition isSpace (s : string) : option N :=
  match byte s, byte (tail s), byte (tail (tail s)) with
  | Some b0, b1, b2 =>
      if (b0 =? 32) || ((9 <=? b0) && (b0 <=? 13)) then Some 1
      else if (b0 =? 194) then
        match b1 with
        | Some b1 => if (b1 =? 133) || (b1 =? 160) then Some 2 else None
        | None => None
        end
      else
        match b1, b2 with
        | Some b1, Some b2 =>
            if (b0 =? 225) && (b1 =? 154) && (b2 =? 128) then Some 3
            else if (b0 =? 226) && (b1 =? 128) &&
                    (((128 <=? b2) && (b2 <=? 138)) ||
                     (b2 =? 168) || (b2 =? 169) || (b2 =? 175)) then Some 3
            else if (b0 =? 226) && (b1 =? 129) && (b2 =? 159) then Some 3
            else if (b0 =? 227) && (b1 =? 128) && (b2 =? 128) then Some 3
            else None
        | _, _ => None
        end
  | None, _, _ => None
  end.

(** What a scanner delivers: the tokens that successive calls of [Scan]
    return, and [Err()] once [Scan] has returned false. *)
Record Scanner : Type := { tokens : list string; Err : option error }.

Definition deliver (tok : string) (rest : Scanner) : Scanner :=
  {| tokens := tok :: tokens rest; Err := Err rest |}.

(** [words s skip cur len]: the bytes [s] remain, of which the first
    [skip] belong to a white-space rune already seen; [cur] holds the bytes
    of the current word in reverse and [len] is their number. *)
Fixpoint words (s : string) (skip : nat) (cur : string) (len : N) : Scanner :=
  match s with
  | EmptyString =>
      if (len =? 0) then {| tokens := []; Err := None |}
      else if (MaxScanTokenSize <=? len) then {| tokens := []; Err := Some ErrTooLong |}
      else deliver (String.rev cur) {| tokens := []; Err := None |}
  | String c r =>
      match skip with
      | S k => words r k cur len
      | O =>
          match isSpace s with
          | Some w =>
              if (len =? 0) then words r (N.to_nat w - 1) EmptyString 0
              else if (MaxScanTokenSize <? len + w) then
                {| tokens := []; Err := Some ErrTooLong |}
              else deliver (String.rev cur) (words r (N.to_nat w - 1) EmptyString 0)
          | None => words r O (String c cur) (len + 1)
          end
      end
  end.

(** [bufio.NewScanner(bytes.NewBuffer(data))] with [Split(bufio.ScanWords)] *)
Definition NewScanner (data : string) : Scanner := words data O EmptyString 0.

End bufio.

(** ** The command line parser *)

Definition validModes : list string := ["install"; "recover"; "run"].

(** The result triple [(mode, sysLabel, err)] of the Go function. *)
Definition classification : Type := string * string * option error.

(** One turn of the [for scanner.Scan()] loop, for the token [text] and the
    named results [mode] and [sysLabel] as they stand: either the function
    returns, or the loop goes on with the updated named results. *)
Definition scanStep (text mode sysLabel : string) : classification + (string * string) :=
  let afterMode : classification + string :=
    if strings.HasPrefix text "snapd_recovery_mode=" then
      let mode := default "" (strings.SplitN2 text "=" !! 1%nat) in
      let mode := if String.eqb mode "" then "install" else mode in
      if negb (strutil.ListContains validModes mode) then
        inl ("", "", Some (ErrUnknownMode mode))
      else if String.eqb mode "run" then
        inl ("run", "", None)
      else inr mode
    else inr mode in
  match afterMode with
  | inl r => inl r
  | inr mode =>
      let sysLabel :=
        if strings.HasPrefix text "snapd_recovery_system=" then
          default "" (strings.SplitN2 text "=" !! 1%nat)
        else sysLabel in
      if negb (String.eqb mode "") && negb (String.eqb sysLabel "") then
        inl (mode, sysLabel, None)
      else inr (mode, sysLabel)
  end.

(** The loop over the tokens, then the code after the loop. *)
Fixpoint scanLoop (toks : list string) (err : option error)
    (mode sysLabel : string) : classification :=
  match toks with
  | text :: toks =>
      match scanStep text mode sysLabel with
      | inl r => r
      | inr (mode, sysLabel) => scanLoop toks err mode sysLabel
      end
  | [] =>
      match err with
      | Some e => ("", "", Some e)
      | None => ("", "", Some ErrCannotDetect)
      end
  end.

Definition whichModeAndRecoverSystem (cmdline : string) : classification :=
  let scanner := bufio.NewScanner cmdline in
  scanLoop (bufio.tokens scanner) (bufio.Err scanner) "" "".

(** ** The pieces of Go's [path/filepath] package that are used (Unix) *)
Module filepath.

(** [strings.Split(path, "/")] *)
Fixpoint elements (path : string) : list string :=
  match path with
  | EmptyString => [EmptyString]
  | String c r =>
      if Ascii.eqb c "/" then EmptyString :: elements r
      else match elements r with
           | e :: es => String c e :: es
           | [] => [String c EmptyString]
           end
  end.

(** One path element met by [Clean]; [out] holds the elements written so
    far, last first.  Empty and [.] elements are dropped, [..] removes the
    last element written when there is one that is not itself [..], and is
    kept only in front of a path that is not rooted. *)
Definition cleanStep (rooted : bool) (out : list string) (e : string) : list string :=
  if String.eqb e "" || String.eqb e "." then out
  else if String.eqb e ".." then
    match out with
    | top :: out' =>
        if negb (String.eqb top "..") then out'
        else if rooted then out else e :: out
    | [] => if rooted then out else e :: out
    end
  else e :: out.

(** [filepath.Clean(path)] *)
Definition Clean (path : string) : string :=
  match path with
  | EmptyString => "."
  | String c _ =>
      let rooted := Ascii.eqb c "/" in
      let out := rev (fold_left (cleanStep rooted) (elements path) []) in
      if rooted then "/" +:+ String.concat "/" out
      else match out with
           | [] => "."
           | _ => String.concat "/" out
           end
  end.

(** [filepath.Join(elem...)]: the elements from the first non-empty one
    on, separated by slashes, then cleaned. *)
Fixpoint Join (elem : list string) : string :=
  match elem with
  | [] => ""
  | e :: es => if String.eqb e "" then Join es else Clean (String.concat "/" elem)
  end.

(** [filepath.Base(path)]: the last element of the path, trailing slashes
    removed. *)
Definition Base (path : string) : string :=
  match path with
  | EmptyString => "."
  | _ =>
      match filter (λ e, negb (String.eqb e "")) (rev (elements path)) with
      | e :: _ => e
      | [] => "/"
      end
  end.

End filepath.

(** ** Mount tuples, the world, and the collaborators *)

(** One line written to [stdout]: [<source> <target>], or
    [--type=<fstype> <source> <target>]. *)
Record MountTuple : Type := {
  mt_type : option string;
  mt_source : string;
  mt_target : string;
}.

Definition newline : string := String "010" EmptyString.

(** The bytes of the line. *)
Definition line (t : MountTuple) : string :=
  match mt_type t with
  | Some ty => "--type=" +:+ ty +:+ " " +:+ mt_source t +:+ " " +:+ mt_target t +:+ newline
  | None => mt_source t +:+ " " +:+ mt_target t +:+ newline
  end.

(** [boot.Modeenv] *)
Record Modeenv : Type := {
  Mode : string;
  RecoverySystem : string;
  Base : string;
  Kernel : string;
}.

(** What an invocation can change: the lines written to [stdout], in order,
    and the modeenv files written, by the root directory handed to
    [Modeenv.Write]. *)
Record World : Type := {
  stdout : list MountTuple;
  modeenvFiles : gmap string Modeenv;
}.

(** The text on [stdout]. *)
Definition stdoutText (w : World) : string := String.concat "" (line <$> stdout w).

(** [snap.Type], as far as the seed's essential snaps go. *)
Inductive snapType : Type :=
  TypeApp | TypeGadget | TypeKernel | TypeBase | TypeOS | TypeSnapd.

(** [snap.Info], of which only [GetType()] is used. *)
Record Info : Type := { GetType : snapType }.

(** [seed.Snap], of which [Path] and [SideInfo] are used. *)
Record seedSnap : Type := { Path : string; SideInfo : string }.

(** An opened seed ([seed.Seed]): what [LoadAssertions] and [LoadMeta]
    return, and the essential snaps it then lists. *)
Record Seed : Type := {
  LoadAssertions : option error;
  LoadMeta : option error;
  EssentialSnaps : list seedSnap;
}.

(** The collaborators of the file.  None of them is defined in it; the
    generators are stated for every behaviour they may have.  An environment
    stands for a state of the machine outside the world below: the mount
    table, the seed, the modeenv on the data partition, the command line.
    The generators do not change it: the run mode writes no file, and the
    install mode, which writes the modeenv, reads none. *)
Record Env : Type := {
  (* osutil.IsMounted: the mount probe *)
  osutilIsMounted : string → error + bool;
  (* seed.Open(seedDir, label) *)
  seedOpen : string → string → error + Seed;
  (* snap.Open(path), the opened container standing for the path *)
  snapOpen : string → error + string;
  (* snap.ReadInfoFromSnapFile(snapf, sideInfo) *)
  snapReadInfoFromSnapFile : string → string → error + Info;
  (* boot.ReadModeenv(rootdir) *)
  bootReadModeenv : string → error + Modeenv;
  (* the error, if any, of modeEnv.Write(rootdir) *)
  modeenvWriteError : Modeenv → string → option error;
  (* dirs.SnapBlobDir *)
  dirsSnapBlobDir : string;
  (* ioutil.ReadFile(path) *)
  ioutilReadFile : string → error + string;
}.

(** ** Effects: writes to the world, and early return on an error *)

Definition M (A : Type) : Type := World → World * (error + A).

#[global] Instance M_ret : MRet M := λ A (a : A) w, (w, inr a).

#[global] Instance M_bind : MBind M := λ A B (f : A → M B) (m : M A) w,
  match m w with
  | (w', inr a) => f a w'
  | (w', inl e) => (w', inl e)
  end.

(** [x, err := f(); if err != nil { return err }] *)
Definition try {A : Type} (r : error + A) : M A := λ w, (w, r).

(** [if err := f(); err != nil { return err }] *)
Definition check (r : option error) : M unit :=
  λ w, (w, match r with Some e => inl e | None => inr () end).

(** [fmt.Fprintf(stdout, ...)] of one line *)
Definition Fprintf (t : MountTuple) : M unit :=
  λ w, ({| stdout := stdout w ++ [t]; modeenvFiles := modeenvFiles w |}, inr ()).

Definition when (b : bool) (m : M unit) : M unit := if b then m else mret ().

(** The lines written by an invocation that took the world from [w] to
    [w']: [stdout] only grows. *)
Definition emitted (w w' : World) : list MountTuple := drop (length (stdout w)) (stdout w').

Definition runMnt : string := "/run/mnt".
Definition procCmdline : string := "/proc/cmdline".

Section Generators.

Variable env : Env.

(** [modeEnv.Write(rootdir)] *)
Definition ModeenvWrite (modeEnv : Modeenv) (rootdir : string) : M unit :=
  λ w, match modeenvWriteError env modeEnv rootdir with
       | Some e => (w, inl e)
       | None =>
           ({| stdout := stdout w;
               modeenvFiles := <[rootdir := modeEnv]> (modeenvFiles w) |}, inr ())
       end.

(** The body of [for _, essentialSnap := range systemSeed.EssentialSnaps()] *)
Fixpoint mountEssentialSnaps (isBaseMounted isKernelMounted isSnapdMounted : bool)
    (snaps : list seedSnap) : M unit :=
  match snaps with
  | [] => mret ()
  | essentialSnap :: snaps =>
      snapf ← try (snapOpen env (Path essentialSnap));
      info ← try (snapReadInfoFromSnapFile env snapf (SideInfo essentialSnap));
      match GetType info with
      | TypeBase =>
          when (negb isBaseMounted)
            (Fprintf {| mt_type := None; mt_source := Path essentialSnap;
                        mt_target := filepath.Join [runMnt; "base"] |})
      | TypeKernel =>
          when (negb isKernelMounted)
            (Fprintf {| mt_type := None; mt_source := Path essentialSnap;
                        mt_target := filepath.Join [runMnt; "kernel"] |})
      | TypeSnapd =>
          when (negb isSnapdMounted)
            (Fprintf {| mt_type := None; mt_source := Path essentialSnap;
                        mt_target := filepath.Join [runMnt; "snapd"] |})
      | _ => mret ()
      end;;
      mountEssentialSnaps isBaseMounted isKernelMounted isSnapdMounted snaps
  end.

Definition generateMountsModeInstall (recoverySystem : string) : M unit :=
  let seedDir := filepath.Join [runMnt; "ubuntu-seed"] in
  (* 1. always ensure seed partition is mounted *)
  isMounted ← try (osutilIsMounted env seedDir);
  if negb isMounted then
    Fprintf {| mt_type := None; mt_source := "/dev/disk/by-label/ubuntu-seed";
               mt_target := seedDir |}
  else
    (* 2. (auto) select recovery system for now *)
    isBaseMounted ← try (osutilIsMounted env (filepath.Join [runMnt; "base"]));
    isKernelMounted ← try (osutilIsMounted env (filepath.Join [runMnt; "kernel"]));
    isSnapdMounted ← try (osutilIsMounted env (filepath.Join [runMnt; "snapd"]));
    when (negb isBaseMounted || negb isKernelMounted || negb isSnapdMounted)
      (systemSeed ← try (seedOpen env seedDir recoverySystem);
       check (LoadAssertions systemSeed);;
       check (LoadMeta systemSeed);;
       mountEssentialSnaps isBaseMounted isKernelMounted isSnapdMounted
         (EssentialSnaps systemSeed));;
    (* 3. mount "ubuntu-data" on a tmpfs *)
    isMounted ← try (osutilIsMounted env (filepath.Join [runMnt; "ubuntu-data"]));
    if negb isMounted then
      Fprintf {| mt_type := Some "tmpfs"; mt_source := "tmpfs";
                 mt_target := "/run/mnt/ubuntu-data" |}
    else
      (* 4. final step: write $(ubuntu_data)/var/lib/snapd/modeenv *)
      ModeenvWrite {| Mode := "install"; RecoverySystem := recoverySystem;
                      Base := ""; Kernel := "" |}
        (filepath.Join [runMnt; "ubuntu-data"; "system-data"]).
      (* 5. done, no output, no error *)

Definition generateMountsModeRecover (recoverySystem : string) : M unit :=
  try (inl ErrRecoverNotImplemented).

(** The body of [for _, d := range []string{seedDir, bootDir}] *)
Fixpoint mountBasicPartitions (ds : list string) : M unit :=
  match ds with
  | [] => mret ()
  | d :: ds =>
      isMounted ← try (osutilIsMounted env d);
      when (negb isMounted)
        (Fprintf {| mt_type := None;
                    mt_source := "/dev/disk/by-label/" +:+ filepath.Base d;
                    mt_target := d |});;
      mountBasicPartitions ds
  end.

Definition generateMountsModeRun : M unit :=
  let seedDir := filepath.Join [runMnt; "ubuntu-seed"] in
  let bootDir := filepath.Join [runMnt; "ubuntu-boot"] in
  let dataDir := filepath.Join [runMnt; "ubuntu-data"] in
  (* 1.1 always ensure basic partitions are mounted *)
  mountBasicPartitions [seedDir; bootDir];;
  (* 1.2 mount Data, and exit, as it needs to be mounted for us to do step 2 *)
  isDataMounted ← try (osutilIsMounted env dataDir);
  if negb isDataMounted then
    Fprintf {| mt_type := None;
               mt_source := "/dev/disk/by-label/" +:+ filepath.Base dataDir;
               mt_target := dataDir |}
  else
    (* 2.1 read modeenv *)
    modeEnv ← try (bootReadModeenv env (filepath.Join [dataDir; "system-data"]));
    (* 2.2 mount base & kernel *)
    isBaseMounted ← try (osutilIsMounted env (filepath.Join [runMnt; "base"]));
    when (negb isBaseMounted)
      (let base := filepath.Join [dataDir; "system-data"; dirsSnapBlobDir env; Base modeEnv] in
       Fprintf {| mt_type := None; mt_source := base;
                  mt_target := filepath.Join [runMnt; "base"] |});;
    isKernelMounted ← try (osutilIsMounted env (filepath.Join [runMnt; "kernel"]));
    when (negb isKernelMounted)
      (let kernel := filepath.Join [dataDir; "system-data"; dirsSnapBlobDir env; Kernel modeEnv] in
       Fprintf {| mt_type := None; mt_source := kernel;
                  mt_target := filepath.Join [runMnt; "kernel"] |}).
    (* 3.1 There is no step 3 =) *)

Definition generateInitramfsMounts : M unit :=
  cmdline ← try (ioutilReadFile env procCmdline);
  match whichModeAndRecoverSystem cmdline with
  | (_, _, Some err) => try (inl err)
  | (mode, recoverySystem, None) =>
      if String.eqb mode "recover" then generateMountsModeRecover recoverySystem
      else if String.eqb mode "install" then generateMountsModeInstall recoverySystem
      else if String.eqb mode "run" then generateMountsModeRun
      else (* this should never be reached *) try (inl ErrModeNotHandled)
  end.

End Generators.

(** The mount points, under the names that the source gives them or their
    last element. *)
Abbreviation seedDir := (filepath.Join [runMnt; "ubuntu-seed"]).
Abbreviation bootDir := (filepath.Join [runMnt; "ubuntu-boot"]).
Abbreviation dataDir := (filepath.Join [runMnt; "ubuntu-data"]).
Abbreviation baseDir := (filepath.Join [runMnt; "base"]).
Abbreviation kernelDir := (filepath.Join [runMnt; "kernel"]).
Abbreviation snapdDir := (filepath.Join [runMnt; "snapd"]).

(** ** The boot sequencer's side: a mount table, and the mounts it performs *)

(** The mount probe over a table of mounted paths. *)
Definition isMountedIn (table : gset string) (path : string) : error + bool :=
  inr (bool_decide (path ∈ table)).

Definition withMounts (env : Env) (table : gset string) : Env :=
  {| osutilIsMounted := isMountedIn table;
     seedOpen := seedOpen env;
     snapOpen := snapOpen env;
     snapReadInfoFromSnapFile := snapReadInfoFromSnapFile env;
     bootReadModeenv := bootReadModeenv env;
     modeenvWriteError := modeenvWriteError env;
     dirsSnapBlobDir := dirsSnapBlobDir env;
     ioutilReadFile := ioutilReadFile env |}.

(** The table after the sequencer has mounted every emitted tuple. *)
Definition performMounts (out : list MountTuple) (table : gset string) : gset string :=
  table ∪ list_to_set (mt_target <$> out).

Definition emptyWorld : World := {| stdout := []; modeenvFiles := ∅ |}.

(** ** The lines of the generators, by name *)

(** [/dev/disk/by-label/<base name of d> <d>] *)
Definition diskTuple (d : string) : MountTuple :=
  {| mt_type := None; mt_source := "/dev/disk/by-label/" +:+ filepath.Base d; mt_target := d |}.

(** [<source> <target>] *)
Definition snapTuple (source target : string) : MountTuple :=
  {| mt_type := None; mt_source := source; mt_target := target |}.

(** [--type=tmpfs tmpfs /run/mnt/ubuntu-data] *)
Definition tmpfsTuple : MountTuple :=
  {| mt_type := Some "tmpfs"; mt_source := "tmpfs"; mt_target := "/run/mnt/ubuntu-data" |}.

(** The sources of the run mode for base and kernel. *)
Definition runSource (env : Env) (name : string) : string :=
  filepath.Join [dataDir; "system-data"; dirsSnapBlobDir env; name].

(** ** A sample machine, for the scenarios *)

Definition sampleModeenv : Modeenv :=
  {| Mode := "run"; RecoverySystem := "20231001";
     Base := "core20_5.snap"; Kernel := "pc-kernel_10.snap" |}.

Definition sampleSeed : Seed :=
  {| LoadAssertions := None;
     LoadMeta := None;
     EssentialSnaps :=
       [ {| Path := "/run/mnt/ubuntu-seed/snaps/snapd_1.snap"; SideInfo := "snapd" |};
         {| Path := "/run/mnt/ubuntu-seed/snaps/pc-kernel_10.snap"; SideInfo := "pc-kernel" |};
         {| Path := "/run/mnt/ubuntu-seed/snaps/core20_5.snap"; SideInfo := "core20" |} ] |}.

(** Nothing is mounted; the seed holds the recovery system [20231001]; the
    data partition holds [sampleModeenv]. *)
Definition sampleEnv : Env :=
  {| osutilIsMounted := isMountedIn ∅;
     seedOpen := λ dir label,
       if String.eqb label "20231001" then inr sampleSeed
       else inl (ErrOther "cannot load assertions for label");
     snapOpen := λ path, inr path;
     snapReadInfoFromSnapFile := λ snapf sideInfo,
       inr {| GetType := if String.eqb sideInfo "snapd" then TypeSnapd
                         else if String.eqb sideInfo "pc-kernel" then TypeKernel
                         else TypeBase |};
     bootReadModeenv := λ rootdir, inr sampleModeenv;
     modeenvWriteError := λ modeEnv rootdir, None;
     dirsSnapBlobDir := "/var/lib/snapd/snaps";
     ioutilReadFile := λ path, inr "snapd_recovery_mode=run" |}.

(** The same machine with a data partition that holds no modeenv. *)
Definition sampleEnvNoModeenv : Env :=
  {| osutilIsMounted := osutilIsMounted sampleEnv;
     seedOpen := seedOpen sampleEnv;
     snapOpen := snapOpen sampleEnv;
     snapReadInfoFromSnapFile := snapReadInfoFromSnapFile sampleEnv;
     bootReadModeenv := λ rootdir, inl (ErrOther "open modeenv: no such file or directory");
     modeenvWriteError := modeenvWriteError sampleEnv;
     dirsSnapBlobDir := dirsSnapBlobDir sampleEnv;
     ioutilReadFile := ioutilReadFile sampleEnv |}.

(** An environment with another seed loader and snap reader. *)
Definition withSeed (env : Env) (open : string → string → error + Seed)
    (snapopen : string → error + string) (readinfo : string → string → error + Info) : Env :=
  {| osutilIsMounted := osutilIsMounted env;
     seedOpen := open;
     snapOpen := snapopen;
     snapReadInfoFromSnapFile := readinfo;
     bootReadModeenv := bootReadModeenv env;
     modeenvWriteError := modeenvWriteError env;
     dirsSnapBlobDir := dirsSnapBlobDir env;
     ioutilReadFile := ioutilReadFile env |}.

(** An environment with another content of [/proc/cmdline]. *)
Definition withCmdline (env : Env) (cmdline : string) : Env :=
  {| osutilIsMounted := osutilIsMounted env;
     seedOpen := seedOpen env;
     snapOpen := snapOpen env;
     snapReadInfoFromSnapFile := snapReadInfoFromSnapFile env;
     bootReadModeenv := bootReadModeenv env;
     modeenvWriteError := modeenvWriteError env;
     dirsSnapBlobDir := dirsSnapBlobDir env;
     ioutilReadFile := λ path, inr cmdline |}.

(** The lines of the run generator for the basic partitions that are not
    mounted. *)
Definition basicLines (isSeedMounted isBootMounted : bool) : list MountTuple :=
  (if isSeedMounted then [] else [diskTuple seedDir]) ++
  (if isBootMounted then [] else [diskTuple bootDir]).

(** The modeenv written at the end of the install mode. *)
Definition installModeenv (recoverySystem : string) : Modeenv :=
  {| Mode := "install"; RecoverySystem := recoverySystem; Base := ""; Kernel := "" |}.

(** ** The effect of an action, for the statements below *)

(** The modeenv files after the writes [ws], in order. *)
Definition writeAll (ws : list (string * Modeenv)) (files : gmap string Modeenv) :
    gmap string Modeenv :=
  foldl (λ fs kv, <[kv.1 := kv.2]> fs) files ws.

(** What the writes [ws] leave under the root directory [k], where [d] was
    before. *)
Definition written (k : string) (ws : list (string * Modeenv)) (d : option Modeenv) :
    option Modeenv :=
  foldl (λ acc kv, if decide (kv.1 = k) then Some kv.2 else acc) d ws.

(** From every world, [m] appends the lines [out] to [stdout], writes the
    modeenv files [ws] and returns [r]. *)
Definition performs {A : Type} (m : M A) (out : list MountTuple)
    (ws : list (string * Modeenv)) (r : error + A) : Prop :=
  ∀ w, m w = ({| stdout := stdout w ++ out;
                 modeenvFiles := writeAll ws (modeenvFiles w) |}, r).

(** [m] has one such effect, and every line it writes satisfies [P]. *)
Definition produces {A : Type} (P : MountTuple → Prop) (m : M A) : Prop :=
  ∃ out ws r, Forall P out ∧ performs m out ws r.

(** Tokens of the command line *)
Definition isModeToken (t : string) : Prop := strings.HasPrefix t "snapd_recovery_mode=" = true.
Definition isSystemToken (t : string) : Prop := strings.HasPrefix t "snapd_recovery_system=" = true.
Definition modeToken (v : string) : string := "snapd_recovery_mode=" +:+ v.

(** The tokens [pre] leave the parser undecided: it has not returned by the
    time it has seen them.  Either none of them is a mode token, or the mode
    tokens among them carry install, recover or the empty value and none of
    them is a system token. *)
Definition undecided (pre : list string) : Prop :=
  Forall (λ t, ¬ isModeToken t) pre ∨
  (Forall (λ t, ¬ isSystemToken t) pre ∧
   Forall (λ t, isModeToken t →
                t ∈ [modeToken ""; modeToken "install"; modeToken "recover"]) pre).

(** ** Further notions for the statements below *)

Definition systemToken (label : string) : string := "snapd_recovery_system=" +:+ label.

(** A token that is neither a mode token nor a system token. *)
Definition neutral (t : string) : Prop := ¬ isModeToken t ∧ ¬ isSystemToken t.

(** The mode that a mode token with value [v] stands for: the empty value
    stands for install. *)
Definition modeOf (v : string) : string := if String.eqb v "" then "install" else v.

(** What the parser may return: the run mode with the empty label, install
    or recover with a label that is not empty, or an error with both strings
    empty. *)
Definition wellFormed (r : classification) : Prop :=
  match r with
  | (mode, sysLabel, None) =>
      (mode = "run" ∧ sysLabel = "") ∨ (mode ∈ ["install"; "recover"] ∧ sysLabel ≠ "")
  | (mode, sysLabel, Some _) => mode = "" ∧ sysLabel = ""
  end.

(** [seed.Open], [LoadAssertions], [LoadMeta] and [EssentialSnaps] in a row,
    as the install mode calls them: the essential snaps of the recovery
    system, or the first error. *)
Definition loadSeed (env : Env) (recoverySystem : string) : error + list seedSnap :=
  match seedOpen env seedDir recoverySystem with
  | inl e => inl e
  | inr systemSeed =>
      match LoadAssertions systemSeed with
      | Some e => inl e
      | None =>
          match LoadMeta systemSeed with
          | Some e => inl e
          | None => inr (EssentialSnaps systemSeed)
          end
      end
  end.

(** [snap.Open], [snap.ReadInfoFromSnapFile] and [GetType] in a row, for one
    essential snap: its type, or the first error. *)
Definition essentialType (env : Env) (essentialSnap : seedSnap) : error + snapType :=
  match snapOpen env (Path essentialSnap) with
  | inl e => inl e
  | inr snapf =>
      match snapReadInfoFromSnapFile env snapf (SideInfo essentialSnap) with
      | inl e => inl e
      | inr info => inr (GetType info)
      end
  end.

Definition readable (env : Env) (essentialSnap : seedSnap) : Prop :=
  ∃ ty, essentialType env essentialSnap = inr ty.

(** The line, if any, for an essential snap of type [ty]. *)
Definition essentialLine (isBaseMounted isKernelMounted isSnapdMounted : bool)
    (essentialSnap : seedSnap) (ty : snapType) : list MountTuple :=
  match ty with
  | TypeBase => if isBaseMounted then [] else [snapTuple (Path essentialSnap) baseDir]
  | TypeKernel => if isKernelMounted then [] else [snapTuple (Path essentialSnap) kernelDir]
  | TypeSnapd => if isSnapdMounted then [] else [snapTuple (Path essentialSnap) snapdDir]
  | _ => []
  end.

(** The lines for the essential snaps that can be read, in their order. *)
Definition essentialLines (env : Env) (isBaseMounted isKernelMounted isSnapdMounted : bool)
    (snaps : list seedSnap) : list MountTuple :=
  flat_map (λ essentialSnap,
              match essentialType env essentialSnap with
              | inr ty => essentialLine isBaseMounted isKernelMounted isSnapdMounted
                            essentialSnap ty
              | inl _ => []
              end) snaps.

(** The root directory of the modeenv of the install mode. *)
Abbreviation installRoot := (filepath.Join [runMnt; "ubuntu-data"; "system-data"]).

(** The lines of the install mode over a mount table, for a seed that loads
    with the essential snaps [snaps]. *)
Definition installLines (env : Env) (table : gset string) (snaps : list seedSnap) :
    list MountTuple :=
  if bool_decide (seedDir ∈ table) then
    essentialLines env (bool_decide (baseDir ∈ table)) (bool_decide (kernelDir ∈ table))
      (bool_decide (snapdDir ∈ table)) snaps ++
    (if bool_decide (dataDir ∈ table) then [] else [tmpfsTuple])
  else [snapTuple "/dev/disk/by-label/ubuntu-seed" seedDir].

(** The lines of the run mode over a mount table, for the modeenv [modeEnv]. *)
Definition runLines (env : Env) (table : gset string) (modeEnv : Modeenv) : list MountTuple :=
  basicLines (bool_decide (seedDir ∈ table)) (bool_decide (bootDir ∈ table)) ++
  (if bool_decide (dataDir ∈ table) then
     (if bool_decide (baseDir ∈ table) then []
      else [snapTuple (runSource env (Base modeEnv)) baseDir]) ++
     (if bool_decide (kernelDir ∈ table) then []
      else [snapTuple (runSource env (Kernel modeEnv)) kernelDir])
   else [diskTuple dataDir]).

(** All the lines that the run mode can write, in the order in which it
    writes them. *)
Definition runCandidates (env : Env) : list MountTuple :=
  [diskTuple seedDir; diskTuple bootDir; diskTuple dataDir] ++
  match bootReadModeenv env (filepath.Join [dataDir; "system-data"]) with
  | inr modeEnv => [snapTuple (runSource env (Base modeEnv)) baseDir;
                    snapTuple (runSource env (Kernel modeEnv)) kernelDir]
  | inl _ => []
  end.


(** The sample machine with a mount probe that fails on the boot partition. *)
Definition sampleEnvBootProbeFails : Env :=
  {| osutilIsMounted := λ path,
       if String.eqb path "/run/mnt/ubuntu-boot"
       then inl (ErrOther "cannot read mountinfo") else inr false;
     seedOpen := seedOpen sampleEnv;
     snapOpen := snapOpen sampleEnv;
     snapReadInfoFromSnapFile := snapReadInfoFromSnapFile sampleEnv;
     bootReadModeenv := bootReadModeenv sampleEnv;
     modeenvWriteError := modeenvWriteError sampleEnv;
     dirsSnapBlobDir := dirsSnapBlobDir sampleEnv;
     ioutilReadFile := ioutilReadFile sampleEnv |}.

(** * Properties *)

(** ** Strings *)

Lemma prefix_nil (s : string) : String.prefix "" s = true.
Proof. by destruct s. Qed.

Lemma HasPrefix_modeToken (v : string) :
  strings.HasPrefix (modeToken v) "snapd_recovery_mode=" = true.
Proof. unfold strings.HasPrefix, modeToken. cbn. apply prefix_nil. Qed.

Lemma HasPrefix_modeToken_system (v : string) :
  strings.HasPrefix (modeToken v) "snapd_recovery_system=" = false.
Proof. reflexivity. Qed.

(** Under the guard of the parser, index 1 of the split exists and is the
    text after the first [=]. *)
Lemma SplitN2_modeToken (v : string) :
  strings.SplitN2 (modeToken v) "=" = ["snapd_recovery_mode"; v].
Proof. reflexivity. Qed.

Lemma HasPrefix_inv (s p : string) :
  strings.HasPrefix s p = true → ∃ v, s = p +:+ v.
Proof.
  unfold strings.HasPrefix. revert s.
  induction p as [|c p IH]; intros s H.
  - by exists s.
  - destruct s as [|d s]; [done|]. cbn in H.
    destruct (ascii_dec c d) as [->|]; [|done].
    destruct (IH s H) as [v ->]. by exists v.
Qed.

Lemma isModeToken_inv (t : string) : isModeToken t → ∃ v, t = modeToken v.
Proof. apply HasPrefix_inv. Qed.

Lemma ListContains_elem_of (l : list string) (s : string) :
  strutil.ListContains l s = true ↔ s ∈ l.
Proof.
  unfold strutil.ListContains. rewrite existsb_exists. split.
  - intros (x & Hx & Heq). apply String.eqb_eq in Heq as ->. by apply list_elem_of_In.
  - intros Hs. exists s. split; [by apply list_elem_of_In | apply String.eqb_refl].
Qed.

Lemma ListContains_not_elem_of (l : list string) (s : string) :
  s ∉ l → strutil.ListContains l s = false.
Proof.
  intros Hs. destruct (strutil.ListContains l s) eqn:E; [|done].
  by apply ListContains_elem_of in E.
Qed.

(** ** The parser, one token at a time *)

Lemma scanStep_run (mode sysLabel : string) :
  scanStep (modeToken "run") mode sysLabel = inl ("run", "", None).
Proof. reflexivity. Qed.

Lemma scanStep_unknown (v mode sysLabel : string) :
  v ≠ "" → v ∉ validModes →
  scanStep (modeToken v) mode sysLabel = inl ("", "", Some (ErrUnknownMode v)).
Proof.
  intros Hne Hv. unfold scanStep.
  rewrite HasPrefix_modeToken, SplitN2_modeToken. cbn [lookup list_lookup default from_option id].
  apply String.eqb_neq in Hne. rewrite Hne.
  by rewrite (ListContains_not_elem_of _ _ Hv).
Qed.

(** A token that is no mode token leaves an unset mode unset. *)
Lemma scanStep_no_mode (t sysLabel : string) :
  ¬ isModeToken t → ∃ sysLabel', scanStep t "" sysLabel = inr ("", sysLabel').
Proof.
  unfold isModeToken, scanStep. intros H.
  destruct (strings.HasPrefix t "snapd_recovery_mode="); [done|].
  cbn. eauto.
Qed.

Lemma scanLoop_no_mode (pre : list string) :
  Forall (λ t, ¬ isModeToken t) pre →
  ∀ sysLabel, ∃ sysLabel', ∀ rest err,
    scanLoop (pre ++ rest) err "" sysLabel = scanLoop rest err "" sysLabel'.
Proof.
  induction 1 as [|t pre Ht _ IH]; intros sysLabel.
  - by exists sysLabel.
  - destruct (scanStep_no_mode t sysLabel Ht) as [s1 Hs1].
    destruct (IH s1) as [s2 Hs2]. exists s2. intros rest err.
    cbn. by rewrite Hs1, Hs2.
Qed.

(** With no label so far, a token that is neither a system token nor a mode
    token of an unknown mode or of the run mode keeps the loop going, still
    without a label. *)
Lemma scanStep_no_label (t mode : string) :
  ¬ isSystemToken t →
  (isModeToken t → t ∈ [modeToken ""; modeToken "install"; modeToken "recover"]) →
  ∃ mode', scanStep t mode "" = inr (mode', "").
Proof.
  unfold isSystemToken. intros Hsys Hmode.
  destruct (strings.HasPrefix t "snapd_recovery_mode=") eqn:E.
  - apply Hmode in E. set_unfold in E. destruct E as [->|[->|[->|[]]]]; cbn; eauto.
  - unfold scanStep. rewrite E.
    destruct (strings.HasPrefix t "snapd_recovery_system="); [done|].
    cbn. rewrite andb_false_r. eauto.
Qed.

Lemma scanLoop_no_label (toks : list string) (err : option error) :
  Forall (λ t, ¬ isSystemToken t) toks →
  Forall (λ t, isModeToken t →
               t ∈ [modeToken ""; modeToken "install"; modeToken "recover"]) toks →
  ∀ mode, scanLoop toks err mode "" = ("", "", Some (default ErrCannotDetect err)).
Proof.
  induction toks as [|t toks IH]; intros Hsys Hmode mode.
  - by destruct err.
  - apply Forall_cons in Hsys as [Hs Hsys]. apply Forall_cons in Hmode as [Hm Hmode].
    destruct (scanStep_no_label t mode Hs Hm) as [mode' Hstep].
    cbn. rewrite Hstep. by apply IH.
Qed.

Lemma scanLoop_no_label_app (pre : list string) :
  Forall (λ t, ¬ isSystemToken t) pre →
  Forall (λ t, isModeToken t →
               t ∈ [modeToken ""; modeToken "install"; modeToken "recover"]) pre →
  ∀ mode, ∃ mode', ∀ rest err,
    scanLoop (pre ++ rest) err mode "" = scanLoop rest err mode' "".
Proof.
  induction pre as [|t pre IH]; intros Hsys Hmode mode.
  - by exists mode.
  - apply Forall_cons in Hsys as [Hs Hsys]. apply Forall_cons in Hmode as [Hm Hmode].
    destruct (scanStep_no_label t mode Hs Hm) as [m1 Hstep].
    destruct (IH Hsys Hmode m1) as [m2 Hm2]. exists m2. intros rest err.
    cbn. by rewrite Hstep, Hm2.
Qed.

(** Tokens that leave the parser undecided are passed over. *)
Lemma scanLoop_undecided (pre : list string) :
  undecided pre →
  ∃ mode sysLabel, ∀ rest err,
    scanLoop (pre ++ rest) err "" "" = scanLoop rest err mode sysLabel.
Proof.
  intros [Hnone|[Hsys Hmode]].
  - destruct (scanLoop_no_mode pre Hnone "") as [s Hs]. by exists "", s.
  - destruct (scanLoop_no_label_app pre Hsys Hmode "") as [m Hm]. by exists m, "".
Qed.

(** The only error of a scanner over an in-memory buffer is [ErrTooLong]. *)
Lemma words_Err (s : string) :
  ∀ skip cur len,
    bufio.Err (bufio.words s skip cur len) = None ∨
    bufio.Err (bufio.words s skip cur len) = Some ErrTooLong.
Proof.
  induction s as [|c r IH]; intros skip cur len; cbn [bufio.words].
  - repeat case_match; cbn; auto.
  - destruct skip; [|apply IH].
    repeat case_match; cbn; auto.
Qed.

(** With no mode token at all the parser fails, with [ErrCannotDetect] or
    with the error of the scanner. *)
Lemma whichMode_no_mode_token (cmdline : string) :
  Forall (λ t, ¬ isModeToken t) (bufio.tokens (bufio.NewScanner cmdline)) →
  ∃ e, whichModeAndRecoverSystem cmdline = ("", "", Some e) ∧
       (e = ErrCannotDetect ∨ e = ErrTooLong).
Proof.
  intros H. unfold whichModeAndRecoverSystem.
  destruct (scanLoop_no_mode _ H "") as [s Hs].
  specialize (Hs [] (bufio.Err (bufio.NewScanner cmdline))).
  rewrite app_nil_r in Hs. rewrite Hs. cbn.
  destruct (words_Err cmdline O EmptyString 0%N) as [E|E];
    unfold bufio.NewScanner; rewrite E; eauto.
Qed.

Lemma generateInitramfsMounts_parse_error (env : Env) (w : World)
    (cmdline mode sysLabel : string) (e : error) :
  ioutilReadFile env procCmdline = inr cmdline →
  whichModeAndRecoverSystem cmdline = (mode, sysLabel, Some e) →
  generateInitramfsMounts env w = (w, inl e).
Proof.
  intros Hread Hparse.
  unfold generateInitramfsMounts, mbind, M_bind, try.
  by rewrite Hread, Hparse.
Qed.

(** A mode other than run is only ever returned with a label that is not
    empty. *)
Lemma scanLoop_success_label (toks : list string) (err : option error) :
  ∀ mode0 sysLabel0 mode sysLabel,
    scanLoop toks err mode0 sysLabel0 = (mode, sysLabel, None) →
    mode = "run" ∨ sysLabel ≠ "".
Proof.
  induction toks as [|t toks IH]; intros mode0 sysLabel0 mode sysLabel; cbn [scanLoop].
  - destruct err; discriminate.
  - destruct (scanStep t mode0 sysLabel0) as [r|[m s]] eqn:E; [|apply IH].
    intros ->. unfold scanStep in E.
    generalize dependent (default "" (strings.SplitN2 t "=" !! 1%nat)). intros v.
    destruct (strings.HasPrefix t "snapd_recovery_mode=");
      destruct (strings.HasPrefix t "snapd_recovery_system=");
      repeat match goal with
        | |- context [if ?b then _ else _] => destruct b eqn:?
        end;
      intros; simplify_eq; auto; right; intros ->;
      repeat match goal with
        | H : _ && _ = true |- _ => apply andb_true_iff in H as [? ?]
        end; done.
Qed.

(** Evaluate the scanner on the literal command lines of the goal. *)
Ltac scan :=
  repeat match goal with
    | |- context [bufio.NewScanner ?s] =>
        let r := eval vm_compute in (bufio.NewScanner s) in
        replace (bufio.NewScanner s) with r by (vm_compute; reflexivity)
    end;
  cbn [bufio.tokens bufio.Err]; unfold modeToken; cbn [String.append].

(** ** The parser: claims *)

(** C6 (as amended).  When the scanner delivers [snapd_recovery_mode=run]
    after tokens that leave the parser undecided (no mode word among them,
    or only recognised mode words other than run and no
    [snapd_recovery_system=] word), the parser returns the run mode with no
    error and an empty recovery-system label.  No [snapd_recovery_system=]
    word is needed, and nothing that follows the run word is looked at: the
    result is the same for every continuation [post] of the token stream
    and every final state [err] of the scanner. *)
Theorem run_token_classifies_run (pre : list string) :
  undecided pre →
  (∀ post err, scanLoop (pre ++ modeToken "run" :: post) err "" "" = ("run", "", None)) ∧
  (∀ cmdline post,
     bufio.tokens (bufio.NewScanner cmdline) = pre ++ modeToken "run" :: post →
     whichModeAndRecoverSystem cmdline = ("run", "", None)).
Proof.
  intros Hpre.
  assert (∀ post err,
    scanLoop (pre ++ modeToken "run" :: post) err "" "" = ("run", "", None)) as Hloop.
  { intros post err. destruct (scanLoop_undecided pre Hpre) as (m & s & Hs).
    rewrite Hs. cbn [scanLoop]. by rewrite scanStep_run. }
  split; [done|].
  intros cmdline post Htoks. unfold whichModeAndRecoverSystem. rewrite Htoks. apply Hloop.
Qed.

Lemma run_token_classifies_run_witness :
  undecided ["quiet"; "snapd_recovery_system=20231001"] ∧
  whichModeAndRecoverSystem
    "quiet snapd_recovery_system=20231001 snapd_recovery_mode=run snapd_recovery_mode=bogus"
  = ("run", "", None).
Proof.
  assert (undecided ["quiet"; "snapd_recovery_system=20231001"]) as H.
  { left. repeat constructor; unfold isModeToken; cbn; discriminate. }
  split; [exact H|].
  apply (proj2 (run_token_classifies_run _ H) _ ["snapd_recovery_mode=bogus"]).
  scan. reflexivity.
Defined.

(** C6 as stated fails: a command line that holds [snapd_recovery_mode=run]
    after the words of a complete install classification is classified as
    install, with the label, and the run word is never reached. *)
Lemma run_token_not_first_counterexample :
  modeToken "run" ∈
    bufio.tokens (bufio.NewScanner
      "snapd_recovery_mode=install snapd_recovery_system=20231001 snapd_recovery_mode=run") ∧
  whichModeAndRecoverSystem
    "snapd_recovery_mode=install snapd_recovery_system=20231001 snapd_recovery_mode=run"
  = ("install", "20231001", None) ∧
  whichModeAndRecoverSystem
    "snapd_recovery_mode=install snapd_recovery_system=20231001 snapd_recovery_mode=run"
  ≠ ("run", "", None).
Proof.
  split; [|split].
  - scan. set_solver.
  - reflexivity.
  - discriminate.
Qed.

(** C2 (as amended).  On a command line whose mode words are all recognised
    and other than run (install, recover, or the empty value that stands for
    install) and which has no [snapd_recovery_system=] word, the parser does
    not return the mode: it fails, with the cannot-detect error (or with the
    scanner's own error).  On any command line, a mode other than run is
    returned only together with a label that is not empty. *)
Theorem mode_without_label_fails (cmdline : string) :
  (Forall (λ t, isModeToken t →
                t ∈ [modeToken ""; modeToken "install"; modeToken "recover"])
          (bufio.tokens (bufio.NewScanner cmdline)) →
   Forall (λ t, ¬ isSystemToken t) (bufio.tokens (bufio.NewScanner cmdline)) →
   whichModeAndRecoverSystem cmdline
   = ("", "", Some (default ErrCannotDetect (bufio.Err (bufio.NewScanner cmdline))))) ∧
  (∀ mode sysLabel,
     whichModeAndRecoverSystem cmdline = (mode, sysLabel, None) →
     mode = "run" ∨ sysLabel ≠ "").
Proof.
  split.
  - intros Hmode Hsys. unfold whichModeAndRecoverSystem. by apply scanLoop_no_label.
  - intros mode sysLabel. apply scanLoop_success_label.
Qed.

Lemma mode_without_label_fails_witness :
  modeToken "recover" ∈ bufio.tokens (bufio.NewScanner "quiet snapd_recovery_mode=recover splash") ∧
  whichModeAndRecoverSystem "quiet snapd_recovery_mode=recover splash"
  = ("", "", Some ErrCannotDetect).
Proof.
  split; [scan; set_solver|].
  apply (proj1 (mode_without_label_fails "quiet snapd_recovery_mode=recover splash")).
  - scan. repeat constructor; unfold isModeToken; cbn; (discriminate || set_solver).
  - scan. repeat constructor; unfold isSystemToken; cbn; discriminate.
Defined.

(** C2 as stated fails: [snapd_recovery_mode=install] alone, a recognised
    mode word with no system word, is not classified as install; the parser
    returns an error. *)
Lemma mode_without_label_counterexample :
  bufio.tokens (bufio.NewScanner "snapd_recovery_mode=install") = [modeToken "install"] ∧
  whichModeAndRecoverSystem "snapd_recovery_mode=install" = ("", "", Some ErrCannotDetect) ∧
  ¬ ∃ mode sysLabel,
      whichModeAndRecoverSystem "snapd_recovery_mode=install" = (mode, sysLabel, None).
Proof.
  split; [reflexivity|]. split; [reflexivity|].
  intros (mode & sysLabel & H). discriminate H.
Qed.

(** C9 (as amended).  When the scanner delivers a [snapd_recovery_mode=]
    word with a value [v] that is not empty and not one of install, recover,
    run, after tokens that leave the parser undecided, the parser fails with
    the unknown-mode error for [v]; the entry point returns that error and
    leaves the world as it was
    (nothing is written to [stdout], no modeenv is written); and the text of
    the error differs from the text of every error that a command line with
    no mode word can produce. *)
Theorem unknown_mode_fails (env : Env) (w : World) (cmdline v : string)
    (pre post : list string) :
  v ≠ "" → v ∉ validModes →
  bufio.tokens (bufio.NewScanner cmdline) = pre ++ modeToken v :: post →
  undecided pre →
  whichModeAndRecoverSystem cmdline = ("", "", Some (ErrUnknownMode v)) ∧
  (ioutilReadFile env procCmdline = inr cmdline →
   generateInitramfsMounts env w = (w, inl (ErrUnknownMode v))) ∧
  (∀ cmdline',
     Forall (λ t, ¬ isModeToken t) (bufio.tokens (bufio.NewScanner cmdline')) →
     ∃ e, whichModeAndRecoverSystem cmdline' = ("", "", Some e) ∧
          ∀ quote, Error quote (ErrUnknownMode v) ≠ Error quote e).
Proof.
  intros Hne Hv Htoks Hpre.
  assert (whichModeAndRecoverSystem cmdline = ("", "", Some (ErrUnknownMode v))) as Hparse.
  { unfold whichModeAndRecoverSystem. rewrite Htoks.
    destruct (scanLoop_undecided pre Hpre) as (m & s & Hs). rewrite Hs.
    cbn [scanLoop]. by rewrite scanStep_unknown. }
  split; [done|]. split.
  - intros Hread. by eapply generateInitramfsMounts_parse_error.
  - intros cmdline' Hnone.
    destruct (whichMode_no_mode_token cmdline' Hnone) as (e & He & [->| ->]);
      eexists; (split; [exact He|]); intros quote; cbn; discriminate.
Qed.

Lemma unknown_mode_fails_witness :
  let env := withCmdline sampleEnv "quiet snapd_recovery_mode=bogus" in
  whichModeAndRecoverSystem "quiet snapd_recovery_mode=bogus"
    = ("", "", Some (ErrUnknownMode "bogus")) ∧
  generateInitramfsMounts env emptyWorld = (emptyWorld, inl (ErrUnknownMode "bogus")).
Proof.
  intros env.
  destruct (unknown_mode_fails env emptyWorld "quiet snapd_recovery_mode=bogus" "bogus"
              ["quiet"] []) as (H1 & H2 & _).
  - discriminate.
  - unfold validModes. rewrite !elem_of_cons, elem_of_nil.
    intros [E|[E|[E|[]]]]; discriminate E.
  - scan. reflexivity.
  - left. repeat constructor. unfold isModeToken. cbn. discriminate.
  - split; [exact H1 | apply H2; reflexivity].
Defined.

(** C9 as stated fails: a command line that holds an unknown mode word
    after [snapd_recovery_mode=run] is classified as run, with no error. *)
Lemma unknown_mode_not_first_counterexample :
  modeToken "bogus" ∈
    bufio.tokens (bufio.NewScanner "snapd_recovery_mode=run snapd_recovery_mode=bogus") ∧
  ("bogus" ≠ "") ∧ ("bogus" ∉ validModes) ∧
  whichModeAndRecoverSystem "snapd_recovery_mode=run snapd_recovery_mode=bogus"
    = ("run", "", None) ∧
  whichModeAndRecoverSystem "snapd_recovery_mode=run snapd_recovery_mode=bogus"
    ≠ ("", "", Some (ErrUnknownMode "bogus")).
Proof.
  split; [|split; [|split; [|split; [|discriminate]]]].
  - scan. rewrite !elem_of_cons. auto.
  - discriminate.
  - unfold validModes. rewrite !elem_of_cons, elem_of_nil.
    intros [E|[E|[E|[]]]]; discriminate E.
  - reflexivity.
Qed.

(** ** Effects of an action

    [performs m out ws r]: from every world, [m] appends the lines [out] to
    [stdout], writes the modeenv files [ws] in order, and returns [r]. *)
Lemma writeAll_app (ws1 ws2 : list (string * Modeenv)) (files : gmap string Modeenv) :
  writeAll (ws1 ++ ws2) files = writeAll ws2 (writeAll ws1 files).
Proof. unfold writeAll. apply foldl_app. Qed.

Lemma lookup_writeAll (ws : list (string * Modeenv)) (k : string) :
  ∀ files : gmap string Modeenv, writeAll ws files !! k = written k ws (files !! k).
Proof.
  induction ws as [|[k' v] ws IH]; intros files; [done|].
  unfold writeAll, written in *. cbn [foldl fst snd]. rewrite IH, lookup_insert.
  by destruct (decide (k' = k)).
Qed.

Lemma written_cases (k : string) (ws : list (string * Modeenv)) :
  (∃ v, ∀ d, written k ws d = Some v) ∨ (∀ d, written k ws d = d).
Proof.
  induction ws as [|[k' v] ws IH]; [by right|].
  unfold written in *. cbn [foldl fst snd].
  destruct IH as [[v' Hv']|Hid].
  - left. exists v'. intros d. apply Hv'.
  - destruct (decide (k' = k)).
    + left. exists v. intros d. apply Hid.
    + right. intros d. apply Hid.
Qed.

(** Writing the same files again changes nothing. *)
Lemma writeAll_twice (ws : list (string * Modeenv)) (files : gmap string Modeenv) :
  writeAll ws (writeAll ws files) = writeAll ws files.
Proof.
  apply map_eq. intros k. rewrite !lookup_writeAll.
  destruct (written_cases k ws) as [[v Hv]|Hid]; [by rewrite !Hv | by rewrite !Hid].
Qed.

Lemma performs_ret {A} (a : A) : performs (mret a) [] [] (inr a).
Proof. intros [out files]. unfold mret, M_ret. cbn. by rewrite app_nil_r. Qed.

Lemma performs_try {A} (r : error + A) : performs (try r) [] [] r.
Proof. intros [out files]. unfold try. cbn. by rewrite app_nil_r. Qed.

Lemma performs_check (r : option error) :
  performs (check r) [] [] (match r with Some e => inl e | None => inr () end).
Proof. intros [out files]. unfold check. cbn. by rewrite app_nil_r. Qed.

Lemma performs_Fprintf (t : MountTuple) : performs (Fprintf t) [t] [] (inr ()).
Proof. by intros [out files]. Qed.

Lemma performs_ModeenvWrite (env : Env) (modeEnv : Modeenv) (rootdir : string) :
  performs (ModeenvWrite env modeEnv rootdir)
    []
    (match modeenvWriteError env modeEnv rootdir with
     | Some _ => [] | None => [(rootdir, modeEnv)] end)
    (match modeenvWriteError env modeEnv rootdir with
     | Some e => inl e | None => inr () end).
Proof.
  intros [out files]. unfold ModeenvWrite.
  destruct (modeenvWriteError env modeEnv rootdir); cbn; by rewrite app_nil_r.
Qed.

Lemma performs_bind {A B} (m : M A) (f : A → M B) out1 ws1 a out2 ws2 r :
  performs m out1 ws1 (inr a) → performs (f a) out2 ws2 r →
  performs (m ≫= f) (out1 ++ out2) (ws1 ++ ws2) r.
Proof.
  intros Hm Hf w. unfold mbind, M_bind. rewrite Hm, Hf. cbn.
  by rewrite writeAll_app, app_assoc.
Qed.

Lemma performs_bind_error {A B} (m : M A) (f : A → M B) out ws e :
  performs m out ws (inl e) → performs (m ≫= f) out ws (inl e).
Proof. intros Hm w. unfold mbind, M_bind. by rewrite Hm. Qed.

Lemma performs_emitted {A} (m : M A) out ws r (w : World) :
  performs m out ws r → emitted w (m w).1 = out ∧ (m w).2 = r.
Proof.
  intros Hm. rewrite Hm. unfold emitted. cbn. by rewrite drop_app_length.
Qed.

(** [produces P m]: [m] has one effect from every world, and every line
    that it writes satisfies [P]. *)
Lemma produces_ret {A} P (a : A) : produces P (mret a).
Proof. exists [], [], (inr a). split; [constructor | apply performs_ret]. Qed.

Lemma produces_try {A} P (r : error + A) : produces P (try r).
Proof. exists [], [], r. split; [constructor | apply performs_try]. Qed.

Lemma produces_check P (r : option error) : produces P (check r).
Proof. eexists [], [], _. split; [constructor | apply performs_check]. Qed.

Lemma produces_Fprintf (P : MountTuple → Prop) (t : MountTuple) : P t → produces P (Fprintf t).
Proof. exists [t], [], (inr ()). split; [by repeat constructor | apply performs_Fprintf]. Qed.

Lemma produces_ModeenvWrite P (env : Env) (modeEnv : Modeenv) (rootdir : string) :
  produces P (ModeenvWrite env modeEnv rootdir).
Proof. eexists [], _, _. split; [constructor | apply performs_ModeenvWrite]. Qed.

Lemma produces_bind {A B} P (m : M A) (f : A → M B) :
  produces P m → (∀ a, produces P (f a)) → produces P (m ≫= f).
Proof.
  intros (out1 & ws1 & [e|a] & HP1 & Hm) Hf.
  - exists out1, ws1, (inl e). split; [done | by apply performs_bind_error].
  - destruct (Hf a) as (out2 & ws2 & r & HP2 & Hfa).
    exists (out1 ++ out2), (ws1 ++ ws2), r.
    split; [by apply Forall_app | by eapply performs_bind].
Qed.

(** The continuation of [x, err := f()] runs only with the value returned. *)
Lemma produces_try_bind {A B} P (r : error + A) (f : A → M B) :
  (∀ a, r = inr a → produces P (f a)) → produces P (try r ≫= f).
Proof.
  intros Hf. destruct r as [e|a].
  - exists [], [], (inl e). split; [constructor|].
    apply performs_bind_error, performs_try.
  - destruct (Hf a eq_refl) as (out & ws & r & HP & Hfa).
    exists out, ws, r. split; [done|].
    apply (performs_bind (try (inr a)) f [] [] a out ws r); [apply performs_try | done].
Qed.

Lemma produces_when P (b : bool) (m : M unit) :
  (b = true → produces P m) → produces P (when b m).
Proof. destruct b; cbn; [auto | intros _; apply produces_ret]. Qed.

Lemma produces_impl {A} (P Q : MountTuple → Prop) (m : M A) :
  (∀ t, P t → Q t) → produces P m → produces Q m.
Proof.
  intros HPQ (out & ws & r & HP & Hm). exists out, ws, r.
  split; [by eapply Forall_impl | done].
Qed.

Lemma produces_emitted {A} P (m : M A) (w : World) :
  produces P m → Forall P (emitted w (m w).1).
Proof.
  intros (out & ws & r & HP & Hm).
  by rewrite (proj1 (performs_emitted m out ws r w Hm)).
Qed.

(** An action with one effect from every world writes the same lines,
    leaves the same modeenv files and returns the same result when it is run
    again in the world it left. *)
Lemma produces_twice {A} P (m : M A) (w : World) :
  produces P m →
  emitted w (m w).1 = emitted (m w).1 (m (m w).1).1 ∧
  modeenvFiles (m (m w).1).1 = modeenvFiles (m w).1 ∧
  (m w).2 = (m (m w).1).2.
Proof.
  intros (out & ws & r & _ & Hm).
  destruct (performs_emitted m out ws r w Hm) as [-> ->].
  destruct (performs_emitted m out ws r (m w).1 Hm) as [-> ->].
  split; [done|]. split; [|done].
  rewrite (Hm (m w).1). cbn [fst modeenvFiles]. rewrite (Hm w). cbn [fst modeenvFiles].
  apply writeAll_twice.
Qed.

(** ** Emission rules of the generators

    One rule per generator: a property holds of every line written as soon
    as it holds of each line under the probe answer that the generator has
    seen before it writes that line. *)

Lemma mountEssentialSnaps_produces P (env : Env) (isBase isKernel isSnapd : bool)
    (snaps : list seedSnap) :
  (isBase = false → ∀ p, P (snapTuple p baseDir)) →
  (isKernel = false → ∀ p, P (snapTuple p kernelDir)) →
  (isSnapd = false → ∀ p, P (snapTuple p snapdDir)) →
  produces P (mountEssentialSnaps env isBase isKernel isSnapd snaps).
Proof.
  intros Hb Hk Hs. induction snaps as [|sn snaps IH]; cbn [mountEssentialSnaps].
  - apply produces_ret.
  - apply produces_try_bind; intros snapf _.
    apply produces_try_bind; intros info _.
    apply produces_bind; [|intros _; apply IH].
    destruct (GetType info); try apply produces_ret;
      apply produces_when; intros Hn; apply negb_true_iff in Hn;
      apply produces_Fprintf; [apply Hk | apply Hb | apply Hs]; done.
Qed.

Lemma install_produces P (env : Env) (recoverySystem : string) :
  (osutilIsMounted env seedDir = inr false →
   P (snapTuple "/dev/disk/by-label/ubuntu-seed" seedDir)) →
  (osutilIsMounted env baseDir = inr false → ∀ p, P (snapTuple p baseDir)) →
  (osutilIsMounted env kernelDir = inr false → ∀ p, P (snapTuple p kernelDir)) →
  (osutilIsMounted env snapdDir = inr false → ∀ p, P (snapTuple p snapdDir)) →
  (osutilIsMounted env dataDir = inr false → P tmpfsTuple) →
  produces P (generateMountsModeInstall env recoverySystem).
Proof.
  intros Hseed Hbase Hkernel Hsnapd Hdata.
  unfold generateMountsModeInstall; cbv zeta.
  apply produces_try_bind; intros [|] Es; cbn [negb].
  2: { apply produces_Fprintf. by apply Hseed. }
  apply produces_try_bind; intros isBase Eb.
  apply produces_try_bind; intros isKernel Ek.
  apply produces_try_bind; intros isSnapd Esn.
  apply produces_bind.
  - apply produces_when; intros _.
    apply produces_try_bind; intros systemSeed _.
    apply produces_bind; [apply produces_check | intros _].
    apply produces_bind; [apply produces_check | intros _].
    apply mountEssentialSnaps_produces; intros ->; auto.
  - intros _. apply produces_try_bind; intros [|] Ed; cbn [negb].
    + apply produces_ModeenvWrite.
    + apply produces_Fprintf. by apply Hdata.
Qed.

Lemma mountBasicPartitions_produces P (env : Env) (ds : list string) :
  (∀ d, d ∈ ds → osutilIsMounted env d = inr false → P (diskTuple d)) →
  produces P (mountBasicPartitions env ds).
Proof.
  induction ds as [|d ds IH]; intros H; cbn [mountBasicPartitions].
  - apply produces_ret.
  - apply produces_try_bind; intros isMounted E.
    apply produces_bind.
    + apply produces_when; intros Hn; apply negb_true_iff in Hn; subst.
      apply produces_Fprintf. apply H; [by left | done].
    + intros _. apply IH. intros d' Hd'. apply H. by right.
Qed.

Lemma run_produces P (env : Env) :
  (∀ d, d ∈ [seedDir; bootDir; dataDir] →
        osutilIsMounted env d = inr false → P (diskTuple d)) →
  (∀ modeEnv,
     osutilIsMounted env dataDir = inr true →
     bootReadModeenv env (filepath.Join [dataDir; "system-data"]) = inr modeEnv →
     (osutilIsMounted env baseDir = inr false →
      P (snapTuple (runSource env (Base modeEnv)) baseDir)) ∧
     (osutilIsMounted env kernelDir = inr false →
      P (snapTuple (runSource env (Kernel modeEnv)) kernelDir))) →
  produces P (generateMountsModeRun env).
Proof.
  intros Hdisk Hsnap.
  unfold generateMountsModeRun; cbv zeta.
  apply produces_bind.
  { apply mountBasicPartitions_produces. intros d Hd. apply Hdisk.
    rewrite !elem_of_cons in *. tauto. }
  intros _. apply produces_try_bind; intros [|] Ed; cbn [negb].
  2: { apply produces_Fprintf. apply (Hdisk _); [|done].
       rewrite !elem_of_cons. tauto. }
  apply produces_try_bind; intros modeEnv Em.
  destruct (Hsnap modeEnv Ed Em) as [Hb Hk].
  apply produces_try_bind; intros isBase Eb.
  apply produces_bind.
  - apply produces_when; intros Hn; apply negb_true_iff in Hn; subst.
    cbv zeta. apply produces_Fprintf. by apply Hb.
  - intros _. apply produces_try_bind; intros isKernel Ek.
    apply produces_when; intros Hn; apply negb_true_iff in Hn; subst.
    cbv zeta. apply produces_Fprintf. by apply Hk.
Qed.

(** ** The generators: claims *)

(** C3.  For the install generator and for the run generator, in every
    environment (the mount probe and the other collaborators answering the
    same both times) and from every world, a second invocation right after
    the first writes the same lines and returns the same result as the
    first, and leaves the modeenv files as the first left them. *)
Theorem generators_idempotent (env : Env) (recoverySystem : string) (w : World) :
  let install := generateMountsModeInstall env recoverySystem in
  let run := generateMountsModeRun env in
  (emitted w (install w).1 = emitted (install w).1 (install (install w).1).1 ∧
   modeenvFiles (install (install w).1).1 = modeenvFiles (install w).1 ∧
   (install w).2 = (install (install w).1).2) ∧
  (emitted w (run w).1 = emitted (run w).1 (run (run w).1).1 ∧
   modeenvFiles (run (run w).1).1 = modeenvFiles (run w).1 ∧
   (run w).2 = (run (run w).1).2).
Proof.
  split.
  - apply (produces_twice (λ _, True)). by apply install_produces.
  - apply (produces_twice (λ _, True)). by apply run_produces.
Qed.

(** C4.  A path that the mount probe reports as mounted is the target of no
    line written by the install generator nor by the run generator, in any
    invocation. *)
Theorem no_mount_of_mounted_target (env : Env) (recoverySystem path : string) (w : World) :
  osutilIsMounted env path = inr true →
  (∀ t, t ∈ emitted w (generateMountsModeInstall env recoverySystem w).1 →
        mt_target t ≠ path) ∧
  (∀ t, t ∈ emitted w (generateMountsModeRun env w).1 → mt_target t ≠ path).
Proof.
  intros Hpath.
  pose (P := λ t : MountTuple, osutilIsMounted env (mt_target t) = inr false).
  assert (∀ t, P t → mt_target t ≠ path) as HP.
  { intros t Ht E. unfold P in Ht. rewrite E in Ht. congruence. }
  split; intros t Ht; apply HP; revert t Ht; apply Forall_forall, produces_emitted.
  - apply install_produces; unfold P; cbn [mt_target snapTuple tmpfsTuple]; auto.
  - apply run_produces; unfold P; cbn [mt_target snapTuple diskTuple]; auto.
Qed.

Lemma no_mount_of_mounted_target_witness :
  let env := withMounts sampleEnv {[ "/run/mnt/ubuntu-seed" ]} in
  osutilIsMounted env "/run/mnt/ubuntu-seed" = inr true ∧
  (∀ t, t ∈ emitted emptyWorld (generateMountsModeInstall env "20231001" emptyWorld).1 →
        mt_target t ≠ "/run/mnt/ubuntu-seed") ∧
  (∀ t, t ∈ emitted emptyWorld (generateMountsModeRun env emptyWorld).1 →
        mt_target t ≠ "/run/mnt/ubuntu-seed").
Proof.
  intros env.
  assert (osutilIsMounted env "/run/mnt/ubuntu-seed" = inr true) as H
    by (vm_compute; reflexivity).
  split; [exact H|].
  exact (no_mount_of_mounted_target env "20231001" "/run/mnt/ubuntu-seed" emptyWorld H).
Defined.

(** ** The generators, step by step *)

(** Run the monad on the probe answers at hand. *)
Ltac run_action :=
  cbv beta iota zeta delta [mbind M_bind mret M_ret try check when Fprintf negb];
  repeat match goal with
    | H : osutilIsMounted _ _ = _ |- _ =>
        rewrite H; cbv beta iota zeta delta [mbind M_bind mret M_ret try check when Fprintf negb]
    | H : bootReadModeenv _ _ = _ |- _ =>
        rewrite H; cbv beta iota zeta delta [mbind M_bind mret M_ret try check when Fprintf negb]
    end.

Lemma run_data_not_mounted (env : Env) (isSeedMounted isBootMounted : bool) :
  osutilIsMounted env seedDir = inr isSeedMounted →
  osutilIsMounted env bootDir = inr isBootMounted →
  osutilIsMounted env dataDir = inr false →
  performs (generateMountsModeRun env)
    (basicLines isSeedMounted isBootMounted ++ [diskTuple dataDir])
    [] (inr ()).
Proof.
  intros Hs Hb Hd [out files].
  unfold generateMountsModeRun. cbn [mountBasicPartitions]. run_action.
  destruct isSeedMounted, isBootMounted; cbn; rewrite <- ?app_assoc; reflexivity.
Qed.

Lemma run_data_mounted (env : Env) (isSeedMounted isBootMounted isBaseMounted isKernelMounted : bool)
    (modeEnv : Modeenv) :
  osutilIsMounted env seedDir = inr isSeedMounted →
  osutilIsMounted env bootDir = inr isBootMounted →
  osutilIsMounted env dataDir = inr true →
  bootReadModeenv env (filepath.Join [dataDir; "system-data"]) = inr modeEnv →
  osutilIsMounted env baseDir = inr isBaseMounted →
  osutilIsMounted env kernelDir = inr isKernelMounted →
  performs (generateMountsModeRun env)
    (basicLines isSeedMounted isBootMounted ++
     (if isBaseMounted then []
      else [snapTuple (runSource env (Base modeEnv)) baseDir]) ++
     (if isKernelMounted then []
      else [snapTuple (runSource env (Kernel modeEnv)) kernelDir]))
    [] (inr ()).
Proof.
  intros Hs Hb Hd Hm Hbase Hkernel [out files].
  unfold generateMountsModeRun. cbn [mountBasicPartitions]. run_action.
  destruct isSeedMounted, isBootMounted, isBaseMounted, isKernelMounted;
    cbn; rewrite <- ?app_assoc, ?app_nil_r; reflexivity.
Qed.

(** The basic partitions are handled before anything else: whatever the
    later steps do, their error, if any, is returned as it is. *)
Lemma run_modeenv_unreadable (env : Env) (isSeedMounted isBootMounted : bool) (e : error) :
  osutilIsMounted env seedDir = inr isSeedMounted →
  osutilIsMounted env bootDir = inr isBootMounted →
  osutilIsMounted env dataDir = inr true →
  bootReadModeenv env (filepath.Join [dataDir; "system-data"]) = inl e →
  performs (generateMountsModeRun env) (basicLines isSeedMounted isBootMounted) [] (inl e).
Proof.
  intros Hs Hb Hd Hm [out files].
  unfold generateMountsModeRun. cbn [mountBasicPartitions]. run_action.
  destruct isSeedMounted, isBootMounted; cbn; rewrite <- ?app_assoc, ?app_nil_r; reflexivity.
Qed.

(** The probe over a table. *)
Lemma isMountedIn_elem (env : Env) (table : gset string) (path : string) :
  path ∈ table → osutilIsMounted (withMounts env table) path = inr true.
Proof. intros H. cbn. unfold isMountedIn. by rewrite bool_decide_eq_true_2. Qed.

Lemma isMountedIn_not_elem (env : Env) (table : gset string) (path : string) :
  path ∉ table → osutilIsMounted (withMounts env table) path = inr false.
Proof. intros H. cbn. unfold isMountedIn. by rewrite bool_decide_eq_false_2. Qed.

Lemma elem_of_performMounts (out : list MountTuple) (table : gset string) (path : string) :
  path ∈ performMounts out table ↔ path ∈ table ∨ path ∈ mt_target <$> out.
Proof. unfold performMounts. by rewrite elem_of_union, elem_of_list_to_set. Qed.

(** C1 (as amended).  With none of the five mount points mounted, the first
    invocation of the run generator writes the lines for the seed, the boot
    and the data partition, in this order; once the sequencer has mounted
    them, and with a modeenv that can be read, the second invocation writes
    the lines for base and kernel; once these are mounted the third
    invocation writes nothing, and so does the fourth.  All return no error.  In any
    invocation at all, a line for base or kernel is written only when the
    probe has reported the data partition as mounted. *)
Theorem run_mode_sequence (env : Env) (table : gset string) (modeEnv : Modeenv) (w : World) :
  (∀ d, d ∈ [seedDir; bootDir; dataDir; baseDir; kernelDir] → d ∉ table) →
  bootReadModeenv env (filepath.Join [dataDir; "system-data"]) = inr modeEnv →
  let call1 := generateMountsModeRun (withMounts env table) w in
  let table1 := performMounts (emitted w call1.1) table in
  let call2 := generateMountsModeRun (withMounts env table1) call1.1 in
  let table2 := performMounts (emitted call1.1 call2.1) table1 in
  let call3 := generateMountsModeRun (withMounts env table2) call2.1 in
  let table3 := performMounts (emitted call2.1 call3.1) table2 in
  let call4 := generateMountsModeRun (withMounts env table3) call3.1 in
  (emitted w call1.1 =
     [diskTuple seedDir; diskTuple bootDir; diskTuple dataDir] ∧ call1.2 = inr ()) ∧
  (emitted call1.1 call2.1 =
     [snapTuple (runSource env (Base modeEnv)) baseDir;
      snapTuple (runSource env (Kernel modeEnv)) kernelDir] ∧
   call2.2 = inr ()) ∧
  (emitted call2.1 call3.1 = [] ∧ call3.2 = inr ()) ∧
  (emitted call3.1 call4.1 = [] ∧ call4.2 = inr ()) ∧
  (∀ env' w' t,
     t ∈ emitted w' (generateMountsModeRun env' w').1 →
     mt_target t = baseDir ∨ mt_target t = kernelDir →
     osutilIsMounted env' dataDir = inr true).
Proof.
  intros Hnone Hm call1 table1 call2 table2 call3 table3 call4.
  assert (seedDir ∉ table) as Hs by (apply Hnone; repeat constructor).
  assert (bootDir ∉ table) as Hb by (apply Hnone; repeat constructor).
  assert (dataDir ∉ table) as Hd by (apply Hnone; repeat constructor).
  assert (baseDir ∉ table) as Hbase by (apply Hnone; repeat constructor).
  assert (kernelDir ∉ table) as Hk by (apply Hnone; repeat constructor).
  clear Hnone.
  (* first invocation *)
  assert (performs (generateMountsModeRun (withMounts env table))
            (basicLines false false ++ [diskTuple dataDir])
            [] (inr ())) as E1
    by (apply run_data_not_mounted; by apply isMountedIn_not_elem).
  destruct (performs_emitted _ _ _ _ w E1) as [Ho1 Hr1].
  change (generateMountsModeRun (withMounts env table) w) with call1 in Ho1, Hr1.
  assert (∀ p, p ∈ table1 ↔
               p ∈ table ∨ p ∈ ["/run/mnt/ubuntu-seed"; "/run/mnt/ubuntu-boot";
                                "/run/mnt/ubuntu-data"]) as Ht1.
  { intros p. unfold table1. rewrite Ho1. apply elem_of_performMounts. }
  (* second invocation *)
  assert (performs (generateMountsModeRun (withMounts env table1))
            (basicLines true true ++
             [snapTuple (runSource env (Base modeEnv)) baseDir] ++
             [snapTuple (runSource env (Kernel modeEnv)) kernelDir])
            [] (inr ())) as E2.
  { apply (run_data_mounted (withMounts env table1) true true false false modeEnv);
      try exact Hm;
      (apply isMountedIn_elem || apply isMountedIn_not_elem); rewrite Ht1, !elem_of_cons;
      first [ tauto | by auto
            | intros [?|[E|[E|[E|E]]]]; [done | discriminate E .. | by apply elem_of_nil in E] ]. }
  destruct (performs_emitted _ _ _ _ call1.1 E2) as [Ho2 Hr2].
  change (generateMountsModeRun (withMounts env table1) call1.1) with call2 in Ho2, Hr2.
  assert (∀ p, p ∈ table2 ↔ p ∈ table1 ∨ p ∈ ["/run/mnt/base"; "/run/mnt/kernel"]) as Ht2.
  { intros p. unfold table2. rewrite Ho2. apply elem_of_performMounts. }
  (* third invocation *)
  assert (performs (generateMountsModeRun (withMounts env table2))
            (basicLines true true ++ [] ++ []) [] (inr ())) as E3.
  { apply (run_data_mounted (withMounts env table2) true true true true modeEnv);
      try exact Hm;
      apply isMountedIn_elem; rewrite Ht2, Ht1, !elem_of_cons; by auto 10. }
  destruct (performs_emitted _ _ _ _ call2.1 E3) as [Ho3 Hr3].
  change (generateMountsModeRun (withMounts env table2) call2.1) with call3 in Ho3, Hr3.
  assert (∀ p, p ∈ table3 ↔ p ∈ table2 ∨ p ∈ @nil string) as Ht3.
  { intros p. unfold table3. rewrite Ho3. apply elem_of_performMounts. }
  (* fourth invocation *)
  assert (performs (generateMountsModeRun (withMounts env table3))
            (basicLines true true ++ [] ++ []) [] (inr ())) as E4.
  { apply (run_data_mounted (withMounts env table3) true true true true modeEnv);
      try exact Hm;
      apply isMountedIn_elem; rewrite Ht3, Ht2, Ht1, !elem_of_cons; by auto 10. }
  destruct (performs_emitted _ _ _ _ call3.1 E4) as [Ho4 Hr4].
  change (generateMountsModeRun (withMounts env table3) call3.1) with call4 in Ho4, Hr4.
  split; [done|]. split; [done|]. split; [done|]. split; [done|].
  (* base and kernel only after data *)
  intros env' w' t Ht Htarget.
  pose (P := λ t : MountTuple,
    mt_target t = baseDir ∨ mt_target t = kernelDir →
    osutilIsMounted env' dataDir = inr true).
  enough (Forall P (emitted w' (generateMountsModeRun env' w').1)) as HP
    by (rewrite Forall_forall in HP; by apply (HP t)).
  apply produces_emitted, run_produces; unfold P.
  - intros d Hdin _ [E|E]; cbn [mt_target diskTuple] in E; subst d;
      rewrite !elem_of_cons in Hdin;
      destruct Hdin as [E|[E|[E|E]]]; first [discriminate E | by apply elem_of_nil in E].
  - intros m Hdata _. by split.
Qed.

Lemma run_mode_sequence_witness :
  let call1 := generateMountsModeRun (withMounts sampleEnv ∅) emptyWorld in
  let table1 := performMounts (emitted emptyWorld call1.1) ∅ in
  let call2 := generateMountsModeRun (withMounts sampleEnv table1) call1.1 in
  emitted emptyWorld call1.1 =
    [snapTuple "/dev/disk/by-label/ubuntu-seed" "/run/mnt/ubuntu-seed";
     snapTuple "/dev/disk/by-label/ubuntu-boot" "/run/mnt/ubuntu-boot";
     snapTuple "/dev/disk/by-label/ubuntu-data" "/run/mnt/ubuntu-data"] ∧
  emitted call1.1 call2.1 =
    [snapTuple "/run/mnt/ubuntu-data/system-data/var/lib/snapd/snaps/core20_5.snap"
       "/run/mnt/base";
     snapTuple "/run/mnt/ubuntu-data/system-data/var/lib/snapd/snaps/pc-kernel_10.snap"
       "/run/mnt/kernel"].
Proof.
  intros call1 table1 call2.
  destruct (run_mode_sequence sampleEnv ∅ sampleModeenv emptyWorld) as [[H1 _] [[H2 _] _]].
  - intros d _. apply not_elem_of_empty.
  - reflexivity.
  - split; [exact H1 | exact H2].
Defined.

(** C1 as stated fails: with nothing mounted, the first invocation already
    writes the line for the data partition, after those for seed and boot. *)
Lemma run_first_call_counterexample :
  let out := emitted emptyWorld (generateMountsModeRun (withMounts sampleEnv ∅) emptyWorld).1 in
  out = [snapTuple "/dev/disk/by-label/ubuntu-seed" "/run/mnt/ubuntu-seed";
         snapTuple "/dev/disk/by-label/ubuntu-boot" "/run/mnt/ubuntu-boot";
         snapTuple "/dev/disk/by-label/ubuntu-data" "/run/mnt/ubuntu-data"] ∧
  out ≠ [snapTuple "/dev/disk/by-label/ubuntu-seed" "/run/mnt/ubuntu-seed";
         snapTuple "/dev/disk/by-label/ubuntu-boot" "/run/mnt/ubuntu-boot"].
Proof.
  intros out.
  assert (out = [snapTuple "/dev/disk/by-label/ubuntu-seed" "/run/mnt/ubuntu-seed";
                 snapTuple "/dev/disk/by-label/ubuntu-boot" "/run/mnt/ubuntu-boot";
                 snapTuple "/dev/disk/by-label/ubuntu-data" "/run/mnt/ubuntu-data"]) as ->
    by (vm_compute; reflexivity).
  split; [reflexivity | discriminate].
Qed.

(** C7.  Every line that the run generator writes for the base (for the
    kernel) mount point has as its source the join of the data partition's
    [system-data] directory, the snap blob directory and the [Base] (the
    [Kernel]) field of the modeenv that was read; when the probes answer and
    the data partition is mounted, such a line is written exactly when the
    probe reports base (kernel) as not mounted; and the generator does the
    same whatever the seed loader and the snap reader are. *)
Theorem run_sources_from_modeenv (env : Env) (w : World) :
  (∀ t, t ∈ emitted w (generateMountsModeRun env w).1 →
     (mt_target t = baseDir →
      ∃ modeEnv,
        bootReadModeenv env (filepath.Join [dataDir; "system-data"]) = inr modeEnv ∧
        mt_source t = filepath.Join [dataDir; "system-data"; dirsSnapBlobDir env; Base modeEnv]) ∧
     (mt_target t = kernelDir →
      ∃ modeEnv,
        bootReadModeenv env (filepath.Join [dataDir; "system-data"]) = inr modeEnv ∧
        mt_source t = filepath.Join [dataDir; "system-data"; dirsSnapBlobDir env; Kernel modeEnv])) ∧
  (∀ isSeedMounted isBootMounted isBaseMounted isKernelMounted modeEnv,
     osutilIsMounted env seedDir = inr isSeedMounted →
     osutilIsMounted env bootDir = inr isBootMounted →
     osutilIsMounted env dataDir = inr true →
     bootReadModeenv env (filepath.Join [dataDir; "system-data"]) = inr modeEnv →
     osutilIsMounted env baseDir = inr isBaseMounted →
     osutilIsMounted env kernelDir = inr isKernelMounted →
     emitted w (generateMountsModeRun env w).1 =
       basicLines isSeedMounted isBootMounted ++
       (if isBaseMounted then []
        else [snapTuple (runSource env (Base modeEnv)) baseDir]) ++
       (if isKernelMounted then []
        else [snapTuple (runSource env (Kernel modeEnv)) kernelDir])) ∧
  (∀ open snapopen readinfo,
     generateMountsModeRun (withSeed env open snapopen readinfo) w = generateMountsModeRun env w).
Proof.
  split; [|split].
  - apply Forall_forall, produces_emitted, run_produces.
    + intros d Hd _. cbn [mt_target diskTuple].
      rewrite !elem_of_cons in Hd.
      destruct Hd as [->|[->|[->|E]]]; [| | |by apply elem_of_nil in E];
        split; intros E; discriminate E.
    + intros modeEnv _ Hm. split; intros _; cbn [mt_target mt_source snapTuple];
        split; intros E; first [ discriminate E | by exists modeEnv ].
  - intros sm bm bb bk modeEnv Hs Hb Hd Hm Hbase Hk.
    by apply (performs_emitted _ _ [] (inr ())), run_data_mounted.
  - reflexivity.
Qed.

Lemma run_sources_from_modeenv_witness :
  let env := withMounts sampleEnv
               {[ "/run/mnt/ubuntu-seed"; "/run/mnt/ubuntu-boot"; "/run/mnt/ubuntu-data" ]} in
  emitted emptyWorld (generateMountsModeRun env emptyWorld).1 =
    [snapTuple "/run/mnt/ubuntu-data/system-data/var/lib/snapd/snaps/core20_5.snap"
       "/run/mnt/base";
     snapTuple "/run/mnt/ubuntu-data/system-data/var/lib/snapd/snaps/pc-kernel_10.snap"
       "/run/mnt/kernel"].
Proof.
  intros env.
  apply (proj1 (proj2 (run_sources_from_modeenv env emptyWorld))
           true true false false sampleModeenv); vm_compute; reflexivity.
Defined.

(** C10.  With the data partition mounted and a modeenv that cannot be read,
    every invocation of the run generator fails, whatever the probe says of
    base and kernel (it is not asked): with the error of the read when the
    probes of seed and boot have answered.  An invocation that returns no
    error and writes no line has read the modeenv. *)
Theorem run_needs_modeenv (env : Env) (w : World) :
  (∀ e,
     osutilIsMounted env dataDir = inr true →
     bootReadModeenv env (filepath.Join [dataDir; "system-data"]) = inl e →
     (∃ e', (generateMountsModeRun env w).2 = inl e') ∧
     (∀ isSeedMounted isBootMounted,
        osutilIsMounted env seedDir = inr isSeedMounted →
        osutilIsMounted env bootDir = inr isBootMounted →
        (generateMountsModeRun env w).2 = inl e)) ∧
  ((generateMountsModeRun env w).2 = inr () →
   emitted w (generateMountsModeRun env w).1 = [] →
   ∃ modeEnv,
     bootReadModeenv env (filepath.Join [dataDir; "system-data"]) = inr modeEnv).
Proof.
  split.
  - intros e Hd Hm.
    assert (∀ isSeedMounted isBootMounted,
      osutilIsMounted env seedDir = inr isSeedMounted →
      osutilIsMounted env bootDir = inr isBootMounted →
      (generateMountsModeRun env w).2 = inl e) as Hboth.
    { intros sm bm Hs Hb.
      by apply (performs_emitted _ (basicLines sm bm) [] (inl e)), run_modeenv_unreadable. }
    split; [|exact Hboth].
    destruct (osutilIsMounted env seedDir) as [es|sm] eqn:Hs;
      [|destruct (osutilIsMounted env bootDir) as [eb|bm] eqn:Hb].
    + exists es. unfold generateMountsModeRun. cbn [mountBasicPartitions]. run_action. done.
    + exists eb. unfold generateMountsModeRun. cbn [mountBasicPartitions]. run_action.
      by destruct sm.
    + exists e. by apply (Hboth sm bm).
  - destruct (bootReadModeenv env (filepath.Join [dataDir; "system-data"]))
      as [e|modeEnv] eqn:Hm; [|by eauto].
    unfold generateMountsModeRun, emitted. cbn [mountBasicPartitions].
    destruct (osutilIsMounted env seedDir) as [?|[|]] eqn:Hs;
      destruct (osutilIsMounted env bootDir) as [?|[|]] eqn:Hb;
      destruct (osutilIsMounted env dataDir) as [?|[|]] eqn:Hd;
      run_action; cbn [fst snd stdout]; try discriminate;
      intros _; rewrite <- ?app_assoc, drop_app_length; discriminate.
Qed.

Lemma run_needs_modeenv_witness :
  let env := withMounts sampleEnvNoModeenv
               {[ "/run/mnt/ubuntu-seed"; "/run/mnt/ubuntu-boot"; "/run/mnt/ubuntu-data";
                  "/run/mnt/base"; "/run/mnt/kernel" ]} in
  osutilIsMounted env "/run/mnt/base" = inr true ∧
  osutilIsMounted env "/run/mnt/kernel" = inr true ∧
  (generateMountsModeRun env emptyWorld).2
    = inl (ErrOther "open modeenv: no such file or directory").
Proof.
  intros env.
  split; [vm_compute; reflexivity|]. split; [vm_compute; reflexivity|].
  apply (proj2 (proj1 (run_needs_modeenv env emptyWorld) _
                  ltac:(vm_compute; reflexivity) ltac:(vm_compute; reflexivity)) true true);
    vm_compute; reflexivity.
Defined.

(** C8.  When the probe reports the seed partition as not mounted, the
    install generator writes one line, with source
    [/dev/disk/by-label/ubuntu-seed] and target the [ubuntu-seed] directory
    under the mount root, returns no error, and does nothing else: no other
    line, no modeenv written. *)
Theorem install_seed_not_mounted (env : Env) (recoverySystem : string) :
  osutilIsMounted env seedDir = inr false →
  performs (generateMountsModeInstall env recoverySystem)
    [snapTuple "/dev/disk/by-label/ubuntu-seed" seedDir]
    [] (inr ()).
Proof.
  intros Hs [out files]. unfold generateMountsModeInstall. run_action. reflexivity.
Qed.

Lemma install_seed_not_mounted_witness :
  generateMountsModeInstall sampleEnv "20231001" emptyWorld
  = ({| stdout := [snapTuple "/dev/disk/by-label/ubuntu-seed" "/run/mnt/ubuntu-seed"];
        modeenvFiles := ∅ |}, inr ()).
Proof.
  apply (install_seed_not_mounted sampleEnv "20231001"). vm_compute. reflexivity.
Defined.

(** C5.  When the probe reports the seed, base, kernel and snapd mount
    points and the data partition as mounted, the install generator writes
    no line and does one thing: it writes the modeenv with mode [install]
    and the recovery system it was called with under the [system-data]
    directory of the data partition.  It returns the error of that write, or
    none. *)
Theorem install_converged (env : Env) (recoverySystem : string) :
  osutilIsMounted env seedDir = inr true →
  osutilIsMounted env baseDir = inr true →
  osutilIsMounted env kernelDir = inr true →
  osutilIsMounted env snapdDir = inr true →
  osutilIsMounted env dataDir = inr true →
  let rootdir := filepath.Join [runMnt; "ubuntu-data"; "system-data"] in
  (∀ w, generateMountsModeInstall env recoverySystem w
        = ModeenvWrite env (installModeenv recoverySystem) rootdir w) ∧
  performs (generateMountsModeInstall env recoverySystem)
    []
    (match modeenvWriteError env (installModeenv recoverySystem) rootdir with
     | Some _ => [] | None => [(rootdir, installModeenv recoverySystem)] end)
    (match modeenvWriteError env (installModeenv recoverySystem) rootdir with
     | Some e => inl e | None => inr () end).
Proof.
  intros Hs Hb Hk Hsn Hd rootdir.
  assert (∀ w, generateMountsModeInstall env recoverySystem w
               = ModeenvWrite env (installModeenv recoverySystem) rootdir w) as Heq.
  { intros w. unfold generateMountsModeInstall. run_action. cbn [orb]. run_action.
    reflexivity. }
  split; [exact Heq|].
  intros w. rewrite Heq. apply performs_ModeenvWrite.
Qed.

Lemma install_converged_witness :
  let env := withMounts sampleEnv
               {[ "/run/mnt/ubuntu-seed"; "/run/mnt/base"; "/run/mnt/kernel";
                  "/run/mnt/snapd"; "/run/mnt/ubuntu-data" ]} in
  generateMountsModeInstall env "20231001" emptyWorld
  = ({| stdout := [];
        modeenvFiles :=
          {[ "/run/mnt/ubuntu-data/system-data" :=
               {| Mode := "install"; RecoverySystem := "20231001"; Base := ""; Kernel := "" |} ]} |},
     inr ()).
Proof.
  intros env.
  rewrite (proj2 (install_converged env "20231001"
                    ltac:(vm_compute; reflexivity) ltac:(vm_compute; reflexivity)
                    ltac:(vm_compute; reflexivity) ltac:(vm_compute; reflexivity)
                    ltac:(vm_compute; reflexivity)) emptyWorld).
  vm_compute. reflexivity.
Defined.

(** ** Scenarios on the sample machine *)

Example parse_install :
  whichModeAndRecoverSystem "snapd_recovery_mode=install snapd_recovery_system=20231001"
  = ("install", "20231001", None).
Proof. reflexivity. Qed.

Example parse_default_install :
  whichModeAndRecoverSystem "snapd_recovery_mode= snapd_recovery_system=20231001"
  = ("install", "20231001", None).
Proof. reflexivity. Qed.

Example parse_no_mode :
  whichModeAndRecoverSystem "nothing-to-see" = ("", "", Some ErrCannotDetect).
Proof. reflexivity. Qed.

Example join_blob_dir :
  runSource sampleEnv "core20_5.snap"
  = "/run/mnt/ubuntu-data/system-data/var/lib/snapd/snaps/core20_5.snap".
Proof. reflexivity. Qed.

(** The bytes written by the first invocation of the run mode. *)
Example run_first_call_text :
  stdoutText (generateMountsModeRun sampleEnv emptyWorld).1
  = "/dev/disk/by-label/ubuntu-seed /run/mnt/ubuntu-seed" +:+ newline +:+
    "/dev/disk/by-label/ubuntu-boot /run/mnt/ubuntu-boot" +:+ newline +:+
    "/dev/disk/by-label/ubuntu-data /run/mnt/ubuntu-data" +:+ newline.
Proof. vm_compute. reflexivity. Qed.

(** The install mode with the seed mounted: the lines for the essential
    snaps of the seed, in its order, and the line for the data partition. *)
Example install_second_call :
  emitted emptyWorld
    (generateMountsModeInstall (withMounts sampleEnv {[ "/run/mnt/ubuntu-seed" ]})
       "20231001" emptyWorld).1
  = [snapTuple "/run/mnt/ubuntu-seed/snaps/snapd_1.snap" "/run/mnt/snapd";
     snapTuple "/run/mnt/ubuntu-seed/snaps/pc-kernel_10.snap" "/run/mnt/kernel";
     snapTuple "/run/mnt/ubuntu-seed/snaps/core20_5.snap" "/run/mnt/base";
     tmpfsTuple].
Proof. vm_compute. reflexivity. Qed.

(** A recovery system that the seed does not hold: the error of the seed
    loader is returned and nothing is written. *)
Example install_unknown_label :
  generateMountsModeInstall (withMounts sampleEnv {[ "/run/mnt/ubuntu-seed" ]})
    "20200101" emptyWorld
  = (emptyWorld, inl (ErrOther "cannot load assertions for label")).
Proof. vm_compute. reflexivity. Qed.

(** The entry point on the sample machine, whose command line selects the
    run mode. *)
Example entry_point_run :
  generateInitramfsMounts sampleEnv emptyWorld = generateMountsModeRun sampleEnv emptyWorld.
Proof. vm_compute. reflexivity. Qed.

Example entry_point_recover :
  generateInitramfsMounts
    (withCmdline sampleEnv "snapd_recovery_mode=recover snapd_recovery_system=20231001")
    emptyWorld
  = (emptyWorld, inl ErrRecoverNotImplemented).
Proof. vm_compute. reflexivity. Qed.

(** * Further properties *)

(** ** The parser *)

(** Between the turns of the loop the mode is unset, install or recover. *)
Lemma scanStep_wellFormed (t mode sysLabel : string) :
  mode ∈ [""; "install"; "recover"] →
  match scanStep t mode sysLabel with
  | inl r => wellFormed r
  | inr (mode', _) => mode' ∈ [""; "install"; "recover"]
  end.
Proof.
  intros Hmode. unfold scanStep.
  destruct (strings.HasPrefix t "snapd_recovery_mode=").
  - generalize (default "" (strings.SplitN2 t "=" !! 1%nat)). intros v.
    fold (modeOf v).
    destruct (strutil.ListContains validModes (modeOf v)) eqn:Hvalid; cbn [negb].
    + apply ListContains_elem_of in Hvalid. unfold validModes in Hvalid.
      rewrite !elem_of_cons, elem_of_nil in Hvalid.
      destruct Hvalid as [->|[->|[->|[]]]]; cbn [String.eqb Ascii.eqb Bool.eqb negb andb];
        try (cbn; by left);
        (destruct (String.eqb _ "") eqn:Hl; cbn [negb];
         [ rewrite !elem_of_cons; auto
         | cbn; right; split; [rewrite !elem_of_cons; auto | by apply String.eqb_neq] ]).
    + by cbn.
  - generalize (if strings.HasPrefix t "snapd_recovery_system="
                then default "" (strings.SplitN2 t "=" !! 1%nat) else sysLabel).
    intros s'.
    destruct (String.eqb mode "") eqn:Hm; [done|].
    destruct (String.eqb s' "") eqn:Hl; [done|].
    cbn. right. apply String.eqb_neq in Hm, Hl. split; [|done].
    rewrite !elem_of_cons, elem_of_nil in *. tauto.
Qed.

Lemma scanLoop_wellFormed (toks : list string) (err : option error) :
  ∀ mode sysLabel,
    mode ∈ [""; "install"; "recover"] → wellFormed (scanLoop toks err mode sysLabel).
Proof.
  induction toks as [|t toks IH]; intros mode sysLabel Hmode; cbn [scanLoop].
  - by destruct err.
  - pose proof (scanStep_wellFormed t mode sysLabel Hmode) as H.
    destruct (scanStep t mode sysLabel) as [r|[m s]]; [done | by apply IH].
Qed.

(** X1.  Whatever the command line, the parser returns a well-formed result:
    on success the mode is run with the empty label, or install or recover
    with a label that is not empty; on an error both strings are empty.  In
    particular a mode returned with no error is one of [validModes]. *)
Theorem classification_wellFormed (cmdline : string) :
  wellFormed (whichModeAndRecoverSystem cmdline) ∧
  (∀ mode sysLabel,
     whichModeAndRecoverSystem cmdline = (mode, sysLabel, None) → mode ∈ validModes).
Proof.
  assert (wellFormed (whichModeAndRecoverSystem cmdline)) as H.
  { apply scanLoop_wellFormed. by left. }
  split; [exact H|].
  intros mode sysLabel E. rewrite E in H. unfold validModes. cbn in H.
  rewrite !elem_of_cons, elem_of_nil in *. tauto.
Qed.

(** A neutral token changes nothing as long as the mode or the label is
    still unset. *)
Lemma scanLoop_neutral (pre : list string) :
  Forall neutral pre →
  ∀ mode sysLabel rest err,
    mode = "" ∨ sysLabel = "" →
    scanLoop (pre ++ rest) err mode sysLabel = scanLoop rest err mode sysLabel.
Proof.
  induction 1 as [|t pre [Hm Hs] _ IH]; intros mode sysLabel rest err Hunset; [done|].
  cbn [app scanLoop]. unfold isModeToken, isSystemToken in Hm, Hs.
  replace (scanStep t mode sysLabel) with
    (inr (mode, sysLabel) : classification + (string * string)); [by apply IH|].
  unfold scanStep.
  destruct (strings.HasPrefix t "snapd_recovery_mode="); [done|].
  destruct (strings.HasPrefix t "snapd_recovery_system="); [done|].
  destruct Hunset as [-> | ->]; [done|].
  by rewrite andb_false_r.
Qed.

Lemma scanStep_mode_first (v : string) :
  v ∈ [""; "install"; "recover"] → scanStep (modeToken v) "" "" = inr (modeOf v, "").
Proof.
  rewrite !elem_of_cons, elem_of_nil. intros [->|[->|[->|[]]]]; reflexivity.
Qed.

Lemma scanStep_system_second (v label : string) :
  v ∈ [""; "install"; "recover"] → label ≠ "" →
  scanStep (systemToken label) (modeOf v) "" = inl (modeOf v, label, None).
Proof.
  rewrite !elem_of_cons, elem_of_nil. intros Hv Hl.
  destruct label as [|c label]; [done|].
  by destruct Hv as [->|[->|[->|[]]]].
Qed.

Lemma scanStep_system_first (label : string) :
  label ≠ "" → scanStep (systemToken label) "" "" = inr ("", label).
Proof. intros Hl. by destruct label. Qed.

Lemma scanStep_mode_second (v label : string) :
  v ∈ [""; "install"; "recover"] → label ≠ "" →
  scanStep (modeToken v) "" label = inl (modeOf v, label, None).
Proof.
  rewrite !elem_of_cons, elem_of_nil. intros Hv Hl.
  destruct label as [|c label]; [done|].
  by destruct Hv as [->|[->|[->|[]]]].
Qed.

(** X2.  The mode word and the system word may come in either order.  With a
    mode value [v] that is empty, install or recover, a label that is not
    empty, and only neutral words before and between the two, the parser
    returns the mode that [v] stands for and the label, whatever follows the
    second of the two words. *)
Theorem mode_and_system_in_either_order (cmdline v label : string)
    (pre mid post : list string) :
  v ∈ [""; "install"; "recover"] → label ≠ "" →
  Forall neutral pre → Forall neutral mid →
  bufio.tokens (bufio.NewScanner cmdline)
    = pre ++ modeToken v :: mid ++ systemToken label :: post ∨
  bufio.tokens (bufio.NewScanner cmdline)
    = pre ++ systemToken label :: mid ++ modeToken v :: post →
  whichModeAndRecoverSystem cmdline = (modeOf v, label, None).
Proof.
  intros Hv Hl Hpre Hmid Htoks. unfold whichModeAndRecoverSystem.
  destruct Htoks as [-> | ->]; rewrite (scanLoop_neutral pre Hpre) by auto; cbn [scanLoop].
  - rewrite (scanStep_mode_first v Hv), (scanLoop_neutral mid Hmid) by auto.
    cbn [scanLoop]. by rewrite scanStep_system_second.
  - rewrite (scanStep_system_first label Hl), (scanLoop_neutral mid Hmid) by auto.
    cbn [scanLoop]. by rewrite scanStep_mode_second.
Qed.

Lemma mode_and_system_in_either_order_witness :
  whichModeAndRecoverSystem "quiet snapd_recovery_system=20231001 splash snapd_recovery_mode= ro"
  = ("install", "20231001", None).
Proof.
  apply (mode_and_system_in_either_order _ "" "20231001" ["quiet"] ["splash"] ["ro"]).
  - rewrite !elem_of_cons. auto.
  - discriminate.
  - repeat constructor; unfold isModeToken, isSystemToken; cbn; discriminate.
  - repeat constructor; unfold isModeToken, isSystemToken; cbn; discriminate.
  - right. scan. reflexivity.
Defined.

(** A result that is not the one of the end of the loop was returned from
    inside the loop, and is returned whatever follows. *)
Lemma scanLoop_decided (pre : list string) (err0 : option error) :
  ∀ mode sysLabel r,
    scanLoop pre err0 mode sysLabel = r →
    r ≠ ("", "", Some (default ErrCannotDetect err0)) →
    ∀ post err, scanLoop (pre ++ post) err mode sysLabel = r.
Proof.
  induction pre as [|t pre IH]; intros mode sysLabel r Hr Hdecided post err.
  - cbn in Hr. by destruct err0; subst r.
  - cbn [app scanLoop] in *.
    destruct (scanStep t mode sysLabel) as [r'|[m s]]; [done | by apply IH].
Qed.

(** X3.  Words added at the end of the command line change neither a
    successful classification nor an unknown-mode error: the parser has
    returned before it reaches them. *)
Theorem classification_stable (cmdline cmdline' : string) (post : list string) :
  bufio.tokens (bufio.NewScanner cmdline')
    = bufio.tokens (bufio.NewScanner cmdline) ++ post →
  (∀ mode sysLabel,
     whichModeAndRecoverSystem cmdline = (mode, sysLabel, None) →
     whichModeAndRecoverSystem cmdline' = (mode, sysLabel, None)) ∧
  (∀ v,
     whichModeAndRecoverSystem cmdline = ("", "", Some (ErrUnknownMode v)) →
     whichModeAndRecoverSystem cmdline' = ("", "", Some (ErrUnknownMode v))).
Proof.
  intros Htoks. unfold whichModeAndRecoverSystem. rewrite Htoks.
  split; [intros mode sysLabel H | intros v H];
    apply (scanLoop_decided _ _ _ _ _ H);
    destruct (words_Err cmdline O EmptyString 0%N) as [E|E];
    unfold bufio.NewScanner; rewrite E; discriminate.
Qed.

Lemma classification_stable_witness :
  whichModeAndRecoverSystem
    "snapd_recovery_mode=recover snapd_recovery_system=20231001 snapd_recovery_mode=bogus"
  = ("recover", "20231001", None).
Proof.
  assert (bufio.tokens (bufio.NewScanner
            "snapd_recovery_mode=recover snapd_recovery_system=20231001 snapd_recovery_mode=bogus")
          = bufio.tokens (bufio.NewScanner
              "snapd_recovery_mode=recover snapd_recovery_system=20231001")
            ++ ["snapd_recovery_mode=bogus"]) as H by (scan; reflexivity).
  apply (proj1 (classification_stable _ _ _ H)). reflexivity.
Defined.

(** ** The entry point *)

(** X4.  When [/proc/cmdline] cannot be read the entry point returns the
    error of the read and writes nothing.  When it is read, the entry point
    returns the error of the parser and writes nothing, or does what the
    generator of the mode does, with the label of the parser: the recover
    mode fails and writes nothing, and the internal error after the switch
    is never returned. *)
Theorem entry_point_dispatch (env : Env) (w : World) :
  (∀ e, ioutilReadFile env procCmdline = inl e →
        generateInitramfsMounts env w = (w, inl e)) ∧
  (∀ cmdline,
     ioutilReadFile env procCmdline = inr cmdline →
     generateInitramfsMounts env w =
       match whichModeAndRecoverSystem cmdline with
       | (_, _, Some e) => (w, inl e)
       | (mode, recoverySystem, None) =>
           if String.eqb mode "recover" then (w, inl ErrRecoverNotImplemented)
           else if String.eqb mode "install" then generateMountsModeInstall env recoverySystem w
           else generateMountsModeRun env w
       end).
Proof.
  split.
  - intros e Hread. unfold generateInitramfsMounts, mbind, M_bind, try. by rewrite Hread.
  - intros cmdline Hread.
    unfold generateInitramfsMounts, mbind, M_bind, try. rewrite Hread.
    pose proof (scanLoop_wellFormed (bufio.tokens (bufio.NewScanner cmdline))
                  (bufio.Err (bufio.NewScanner cmdline)) "" "" ltac:(by left)) as Hwf.
    fold (whichModeAndRecoverSystem cmdline) in Hwf.
    destruct (whichModeAndRecoverSystem cmdline) as [[mode label] [e|]]; [done|].
    cbn in Hwf. rewrite !elem_of_cons, elem_of_nil in Hwf.
    destruct Hwf as [[-> _]|[[->|[->|[]]] _]]; reflexivity.
Qed.

Lemma entry_point_dispatch_witness :
  generateInitramfsMounts
    (withCmdline sampleEnv "snapd_recovery_mode=install snapd_recovery_system=20231001")
    emptyWorld
  = generateMountsModeInstall sampleEnv "20231001" emptyWorld.
Proof.
  rewrite (proj2 (entry_point_dispatch
                    (withCmdline sampleEnv
                       "snapd_recovery_mode=install snapd_recovery_system=20231001")
                    emptyWorld)
             "snapd_recovery_mode=install snapd_recovery_system=20231001" eq_refl).
  reflexivity.
Defined.

(** ** Running an action on the answers at hand *)

Lemma performs_try_inr {A B} (r0 : error + A) (a : A) (f : A → M B) out ws r :
  r0 = inr a → performs (f a) out ws r → performs (try r0 ≫= f) out ws r.
Proof.
  intros -> Hf. apply (performs_bind (try (inr a)) f [] [] a out ws r); [apply performs_try | done].
Qed.

Lemma performs_try_inl {A B} (r0 : error + A) (e : error) (f : A → M B) :
  r0 = inl e → performs (try r0 ≫= f) [] [] (inl e).
Proof. intros ->. apply performs_bind_error, performs_try. Qed.

Lemma performs_check_None {B} (r0 : option error) (k : M B) out ws r :
  r0 = None → performs k out ws r → performs (check r0 ;; k) out ws r.
Proof.
  intros -> Hk. apply (performs_bind (check None) (λ _, k) [] [] () out ws r);
    [apply (performs_check None) | done].
Qed.

Lemma performs_check_Some {B} (r0 : option error) (e : error) (k : M B) :
  r0 = Some e → performs (check r0 ;; k) [] [] (inl e).
Proof. intros ->. apply performs_bind_error, (performs_check (Some e)). Qed.

Lemma performs_when_Fprintf (b : bool) (t : MountTuple) :
  performs (when (negb b) (Fprintf t)) (if b then [] else [t]) [] (inr ()).
Proof. destruct b; [apply performs_ret | apply performs_Fprintf]. Qed.

(** ** The essential snaps of the install mode *)

Lemma essentialType_inr (env : Env) (sn : seedSnap) (ty : snapType) :
  essentialType env sn = inr ty →
  ∃ snapf info, snapOpen env (Path sn) = inr snapf ∧
                snapReadInfoFromSnapFile env snapf (SideInfo sn) = inr info ∧
                GetType info = ty.
Proof.
  unfold essentialType. intros H.
  destruct (snapOpen env (Path sn)) as [|snapf]; [done|].
  destruct (snapReadInfoFromSnapFile env snapf (SideInfo sn)) as [|info] eqn:E; [done|].
  exists snapf, info. by simplify_eq.
Qed.

Lemma mountEssentialSnaps_step (env : Env) (b k s : bool) (sn : seedSnap) (ty : snapType)
    (snaps : list seedSnap) out ws r :
  essentialType env sn = inr ty →
  performs (mountEssentialSnaps env b k s snaps) out ws r →
  performs (mountEssentialSnaps env b k s (sn :: snaps)) (essentialLine b k s sn ty ++ out) ws r.
Proof.
  intros (snapf & info & Ho & Hi & <-)%essentialType_inr Hrest.
  cbn [mountEssentialSnaps].
  apply (performs_try_inr _ snapf _ _ _ _ Ho), (performs_try_inr _ info _ _ _ _ Hi).
  apply (performs_bind _ _ (essentialLine b k s sn (GetType info)) [] () out ws r); [|done].
  unfold essentialLine.
  destruct (GetType info); first [apply performs_when_Fprintf | apply performs_ret].
Qed.

Lemma mountEssentialSnaps_error (env : Env) (b k s : bool) (sn : seedSnap) (e : error)
    (snaps : list seedSnap) :
  essentialType env sn = inl e →
  performs (mountEssentialSnaps env b k s (sn :: snaps)) [] [] (inl e).
Proof.
  unfold essentialType. intros H. cbn [mountEssentialSnaps].
  destruct (snapOpen env (Path sn)) as [e'|snapf].
  - simplify_eq. by apply performs_try_inl.
  - apply (performs_try_inr _ snapf _ _ _ _ eq_refl).
    destruct (snapReadInfoFromSnapFile env snapf (SideInfo sn)) as [e'|info]; [|done].
    simplify_eq. by apply performs_try_inl.
Qed.

Lemma essentialLines_cons (env : Env) (b k s : bool) (sn : seedSnap) (ty : snapType)
    (snaps : list seedSnap) :
  essentialType env sn = inr ty →
  essentialLines env b k s (sn :: snaps) =
  essentialLine b k s sn ty ++ essentialLines env b k s snaps.
Proof. intros H. unfold essentialLines. cbn [flat_map]. by rewrite H. Qed.

(** The loop over essential snaps that can all be read. *)
Lemma mountEssentialSnaps_readable (env : Env) (b k s : bool) (snaps : list seedSnap) :
  Forall (readable env) snaps →
  performs (mountEssentialSnaps env b k s snaps) (essentialLines env b k s snaps) [] (inr ()).
Proof.
  induction 1 as [|sn snaps [ty Hty] _ IH].
  - apply performs_ret.
  - rewrite (essentialLines_cons _ _ _ _ _ _ _ Hty). by apply mountEssentialSnaps_step.
Qed.


Lemma essentialLines_mounted (env : Env) (snaps : list seedSnap) :
  essentialLines env true true true snaps = [].
Proof.
  induction snaps as [|sn snaps IH]; [done|].
  unfold essentialLines in *. cbn [flat_map]. rewrite IH.
  destruct (essentialType env sn) as [|[]]; done.
Qed.

(** ** The install mode past its first step *)

Lemma loadSeed_inr (env : Env) (recoverySystem : string) (snaps : list seedSnap) :
  loadSeed env recoverySystem = inr snaps →
  ∃ systemSeed, seedOpen env seedDir recoverySystem = inr systemSeed ∧
                LoadAssertions systemSeed = None ∧ LoadMeta systemSeed = None ∧
                EssentialSnaps systemSeed = snaps.
Proof.
  unfold loadSeed. intros H.
  destruct (seedOpen env seedDir recoverySystem) as [|systemSeed]; [done|].
  destruct (LoadAssertions systemSeed) eqn:Ha; [done|].
  destruct (LoadMeta systemSeed) eqn:Hm; [done|].
  exists systemSeed. by simplify_eq.
Qed.

(** Step 2 of the install mode with a seed that loads. *)
Lemma install_step2 (env : Env) (recoverySystem : string) (b k s : bool)
    (snaps : list seedSnap) out (r : error + unit) :
  loadSeed env recoverySystem = inr snaps →
  performs (mountEssentialSnaps env b k s snaps) out [] r →
  (negb b || negb k || negb s = false → out = [] ∧ r = inr ()) →
  performs
    (when (negb b || negb k || negb s)
       (systemSeed ← try (seedOpen env seedDir recoverySystem);
        check (LoadAssertions systemSeed);;
        check (LoadMeta systemSeed);;
        mountEssentialSnaps env b k s (EssentialSnaps systemSeed)))
    out [] r.
Proof.
  intros (systemSeed & Ho & Ha & Hm & <-)%loadSeed_inr Hloop Hskip.
  destruct (negb b || negb k || negb s); cbn [when].
  - apply (performs_try_inr _ systemSeed _ _ _ _ Ho).
    apply (performs_check_None _ _ _ _ _ Ha), (performs_check_None _ _ _ _ _ Hm). exact Hloop.
  - destruct (Hskip eq_refl) as [-> ->]. apply performs_ret.
Qed.

(** Step 2 of the install mode with a seed that does not load. *)
Lemma install_step2_error (env : Env) (recoverySystem : string) (b k s : bool) (e : error) :
  loadSeed env recoverySystem = inl e →
  negb b || negb k || negb s = true →
  performs
    (when (negb b || negb k || negb s)
       (systemSeed ← try (seedOpen env seedDir recoverySystem);
        check (LoadAssertions systemSeed);;
        check (LoadMeta systemSeed);;
        mountEssentialSnaps env b k s (EssentialSnaps systemSeed)))
    [] [] (inl e).
Proof.
  unfold loadSeed. intros H ->. cbn [when].
  destruct (seedOpen env seedDir recoverySystem) as [e'|systemSeed].
  { simplify_eq. by apply performs_try_inl. }
  apply (performs_try_inr _ systemSeed _ _ _ _ eq_refl).
  destruct (LoadAssertions systemSeed) as [e'|].
  { simplify_eq. by apply performs_check_Some. }
  apply (performs_check_None _ _ _ _ _ eq_refl).
  destruct (LoadMeta systemSeed) as [e'|]; [|done].
  simplify_eq. by apply performs_check_Some.
Qed.

(** Steps 3 and 4 of the install mode. *)
Lemma install_step3 (env : Env) (recoverySystem : string) (d : bool) :
  osutilIsMounted env dataDir = inr d →
  performs
    (isMounted ← try (osutilIsMounted env dataDir);
     if negb isMounted then Fprintf tmpfsTuple
     else ModeenvWrite env (installModeenv recoverySystem) installRoot)
    (if d then [] else [tmpfsTuple])
    (if d then match modeenvWriteError env (installModeenv recoverySystem) installRoot with
               | Some _ => [] | None => [(installRoot, installModeenv recoverySystem)] end
     else [])
    (if d then match modeenvWriteError env (installModeenv recoverySystem) installRoot with
               | Some e => inl e | None => inr () end
     else inr ()).
Proof.
  intros Hd. apply (performs_try_inr _ d _ _ _ _ Hd).
  destruct d; cbn [negb]; [apply performs_ModeenvWrite | apply performs_Fprintf].
Qed.

(** The install mode up to step 2, for the answers of the four probes. *)
Lemma install_steps (env : Env) (recoverySystem : string) (b k s : bool)
    out1 (r1 : error + unit) out2 ws r :
  osutilIsMounted env seedDir = inr true →
  osutilIsMounted env baseDir = inr b →
  osutilIsMounted env kernelDir = inr k →
  osutilIsMounted env snapdDir = inr s →
  performs
    (when (negb b || negb k || negb s)
       (systemSeed ← try (seedOpen env seedDir recoverySystem);
        check (LoadAssertions systemSeed);;
        check (LoadMeta systemSeed);;
        mountEssentialSnaps env b k s (EssentialSnaps systemSeed)))
    out1 [] r1 →
  match r1 with
  | inl e => out2 = [] ∧ ws = [] ∧ r = inl e
  | inr _ =>
      performs
        (isMounted ← try (osutilIsMounted env dataDir);
         if negb isMounted then Fprintf tmpfsTuple
         else ModeenvWrite env (installModeenv recoverySystem) installRoot)
        out2 ws r
  end →
  performs (generateMountsModeInstall env recoverySystem) (out1 ++ out2) ws r.
Proof.
  intros Hs Hb Hk Hsn Hstep2 Hrest.
  unfold generateMountsModeInstall; cbv zeta.
  apply (performs_try_inr _ true _ _ _ _ Hs); cbn [negb].
  apply (performs_try_inr _ b _ _ _ _ Hb), (performs_try_inr _ k _ _ _ _ Hk),
    (performs_try_inr _ s _ _ _ _ Hsn).
  destruct r1 as [e|[]].
  - destruct Hrest as (-> & -> & ->). rewrite app_nil_r.
    by apply performs_bind_error.
  - by apply (performs_bind _ _ out1 [] () out2 ws r).
Qed.

(** X5.  The install mode with the seed partition mounted, a seed that loads
    and essential snaps that can be read.  In one invocation it writes the
    lines for the essential snaps of type base, kernel and snapd whose mount
    point is not mounted, in the order of the seed, and then the line for
    the data partition when it is not mounted.  When the data partition is
    mounted it writes the modeenv instead, whether or not base, kernel and
    snapd are mounted, and returns the result of that write. *)
Theorem install_seed_mounted (env : Env) (recoverySystem : string) (b k s d : bool)
    (snaps : list seedSnap) :
  osutilIsMounted env seedDir = inr true →
  osutilIsMounted env baseDir = inr b →
  osutilIsMounted env kernelDir = inr k →
  osutilIsMounted env snapdDir = inr s →
  osutilIsMounted env dataDir = inr d →
  loadSeed env recoverySystem = inr snaps →
  Forall (readable env) snaps →
  performs (generateMountsModeInstall env recoverySystem)
    (essentialLines env b k s snaps ++ (if d then [] else [tmpfsTuple]))
    (if d then match modeenvWriteError env (installModeenv recoverySystem) installRoot with
               | Some _ => [] | None => [(installRoot, installModeenv recoverySystem)] end
     else [])
    (if d then match modeenvWriteError env (installModeenv recoverySystem) installRoot with
               | Some e => inl e | None => inr () end
     else inr ()).
Proof.
  intros Hs Hb Hk Hsn Hd Hseed Hsnaps.
  apply (install_steps env recoverySystem b k s _ (inr ()) _ _ _ Hs Hb Hk Hsn).
  - apply (install_step2 _ _ _ _ _ snaps); [done | by apply mountEssentialSnaps_readable |].
    intros Hall. destruct b, k, s; try discriminate Hall.
    by rewrite essentialLines_mounted.
  - by apply install_step3.
Qed.

Lemma install_seed_mounted_witness :
  let env := withMounts sampleEnv {[ "/run/mnt/ubuntu-seed"; "/run/mnt/ubuntu-data" ]} in
  generateMountsModeInstall env "20231001" emptyWorld
  = ({| stdout :=
          [snapTuple "/run/mnt/ubuntu-seed/snaps/snapd_1.snap" "/run/mnt/snapd";
           snapTuple "/run/mnt/ubuntu-seed/snaps/pc-kernel_10.snap" "/run/mnt/kernel";
           snapTuple "/run/mnt/ubuntu-seed/snaps/core20_5.snap" "/run/mnt/base"];
        modeenvFiles := {[ "/run/mnt/ubuntu-data/system-data" := installModeenv "20231001" ]} |},
     inr ()).
Proof.
  intros env.
  assert (Forall (readable env) (EssentialSnaps sampleSeed)) as Hsnaps
    by (repeat constructor; eexists; vm_compute; reflexivity).
  rewrite (install_seed_mounted env "20231001" false false false true
             (EssentialSnaps sampleSeed) eq_refl eq_refl eq_refl eq_refl eq_refl eq_refl
             Hsnaps emptyWorld).
  vm_compute. reflexivity.
Defined.



(** X7.  The install mode with a seed that does not load ([seed.Open],
    [LoadAssertions] or [LoadMeta] fails) while base, kernel or snapd is not
    mounted: the error is returned and nothing is written, not even the
    line for the data partition. *)
Theorem install_seed_unloadable (env : Env) (recoverySystem : string) (b k s : bool)
    (e : error) :
  osutilIsMounted env seedDir = inr true →
  osutilIsMounted env baseDir = inr b →
  osutilIsMounted env kernelDir = inr k →
  osutilIsMounted env snapdDir = inr s →
  negb b || negb k || negb s = true →
  loadSeed env recoverySystem = inl e →
  performs (generateMountsModeInstall env recoverySystem) [] [] (inl e).
Proof.
  intros Hs Hb Hk Hsn Hsome Hseed.
  apply (install_steps env recoverySystem b k s [] (inl e) [] _ _ Hs Hb Hk Hsn); [|done].
  by apply install_step2_error.
Qed.

Lemma install_seed_unloadable_witness :
  let env := withMounts sampleEnv {[ "/run/mnt/ubuntu-seed" ]} in
  generateMountsModeInstall env "20200101" emptyWorld
  = (emptyWorld, inl (ErrOther "cannot load assertions for label")).
Proof.
  intros env.
  rewrite (install_seed_unloadable env "20200101" false false false
             (ErrOther "cannot load assertions for label")
             eq_refl eq_refl eq_refl eq_refl eq_refl eq_refl emptyWorld).
  reflexivity.
Defined.

(** X8.  Once the probe reports the seed partition, base, kernel and snapd
    as mounted, the install mode does not look at the seed: it does the same
    whatever the seed loader and the snap reader are. *)
Theorem install_seed_not_consulted (env : Env) (recoverySystem : string) (w : World)
    (open : string → string → error + Seed) (snapopen : string → error + string)
    (readinfo : string → string → error + Info) :
  osutilIsMounted env seedDir = inr true →
  osutilIsMounted env baseDir = inr true →
  osutilIsMounted env kernelDir = inr true →
  osutilIsMounted env snapdDir = inr true →
  generateMountsModeInstall (withSeed env open snapopen readinfo) recoverySystem w
  = generateMountsModeInstall env recoverySystem w.
Proof.
  intros Hs Hb Hk Hsn.
  unfold generateMountsModeInstall. cbn [osutilIsMounted withSeed].
  run_action. reflexivity.
Qed.

Lemma install_seed_not_consulted_witness :
  let env := withMounts sampleEnv
               {[ "/run/mnt/ubuntu-seed"; "/run/mnt/base"; "/run/mnt/kernel"; "/run/mnt/snapd" ]} in
  generateMountsModeInstall
    (withSeed env (λ _ _, inl (ErrOther "no seed")) (λ _, inl (ErrOther "no snap"))
       (λ _ _, inl (ErrOther "no info")))
    "20231001" emptyWorld
  = ({| stdout := [tmpfsTuple]; modeenvFiles := ∅ |}, inr ()).
Proof.
  intros env.
  rewrite (install_seed_not_consulted env "20231001" emptyWorld _ _ _
             eq_refl eq_refl eq_refl eq_refl).
  vm_compute. reflexivity.
Defined.

(** ** The run mode, for every answer of the collaborators *)

Lemma run_seed_probe_error (env : Env) (e : error) :
  osutilIsMounted env seedDir = inl e →
  performs (generateMountsModeRun env) [] [] (inl e).
Proof.
  intros Hs [out files]. unfold generateMountsModeRun. cbn [mountBasicPartitions].
  run_action. cbn. by rewrite app_nil_r.
Qed.

Lemma run_boot_probe_error (env : Env) (isSeedMounted : bool) (e : error) :
  osutilIsMounted env seedDir = inr isSeedMounted →
  osutilIsMounted env bootDir = inl e →
  performs (generateMountsModeRun env)
    (if isSeedMounted then [] else [diskTuple seedDir]) [] (inl e).
Proof.
  intros Hs Hb [out files]. unfold generateMountsModeRun. cbn [mountBasicPartitions].
  run_action. destruct isSeedMounted; cbn; by rewrite ?app_nil_r.
Qed.

Lemma run_data_probe_error (env : Env) (isSeedMounted isBootMounted : bool) (e : error) :
  osutilIsMounted env seedDir = inr isSeedMounted →
  osutilIsMounted env bootDir = inr isBootMounted →
  osutilIsMounted env dataDir = inl e →
  performs (generateMountsModeRun env) (basicLines isSeedMounted isBootMounted) [] (inl e).
Proof.
  intros Hs Hb Hd [out files]. unfold generateMountsModeRun. cbn [mountBasicPartitions].
  run_action.
  destruct isSeedMounted, isBootMounted; cbn; by rewrite <- ?app_assoc, ?app_nil_r.
Qed.

Lemma run_base_probe_error (env : Env) (isSeedMounted isBootMounted : bool)
    (modeEnv : Modeenv) (e : error) :
  osutilIsMounted env seedDir = inr isSeedMounted →
  osutilIsMounted env bootDir = inr isBootMounted →
  osutilIsMounted env dataDir = inr true →
  bootReadModeenv env (filepath.Join [dataDir; "system-data"]) = inr modeEnv →
  osutilIsMounted env baseDir = inl e →
  performs (generateMountsModeRun env) (basicLines isSeedMounted isBootMounted) [] (inl e).
Proof.
  intros Hs Hb Hd Hm Hbase [out files]. unfold generateMountsModeRun.
  cbn [mountBasicPartitions]. run_action.
  destruct isSeedMounted, isBootMounted; cbn; by rewrite <- ?app_assoc, ?app_nil_r.
Qed.

Lemma run_kernel_probe_error (env : Env) (isSeedMounted isBootMounted isBaseMounted : bool)
    (modeEnv : Modeenv) (e : error) :
  osutilIsMounted env seedDir = inr isSeedMounted →
  osutilIsMounted env bootDir = inr isBootMounted →
  osutilIsMounted env dataDir = inr true →
  bootReadModeenv env (filepath.Join [dataDir; "system-data"]) = inr modeEnv →
  osutilIsMounted env baseDir = inr isBaseMounted →
  osutilIsMounted env kernelDir = inl e →
  performs (generateMountsModeRun env)
    (basicLines isSeedMounted isBootMounted ++
     (if isBaseMounted then []
      else [snapTuple (runSource env (Base modeEnv)) baseDir]))
    [] (inl e).
Proof.
  intros Hs Hb Hd Hm Hbase Hk [out files]. unfold generateMountsModeRun.
  cbn [mountBasicPartitions]. run_action.
  destruct isSeedMounted, isBootMounted, isBaseMounted;
    cbn; by rewrite <- ?app_assoc, ?app_nil_r.
Qed.

(** X9.  In the run mode the error of a probe is returned as it is, and the
    lines written before the probe failed stay written: the lines for seed
    and boot when the probe of the data partition or of base fails, and the
    line for base as well when the probe of kernel fails. *)
Theorem run_probe_error_keeps_lines (env : Env) (e : error) :
  (osutilIsMounted env seedDir = inl e →
   performs (generateMountsModeRun env) [] [] (inl e)) ∧
  (∀ isSeedMounted,
     osutilIsMounted env seedDir = inr isSeedMounted →
     osutilIsMounted env bootDir = inl e →
     performs (generateMountsModeRun env)
       (if isSeedMounted then [] else [diskTuple seedDir]) [] (inl e)) ∧
  (∀ isSeedMounted isBootMounted,
     osutilIsMounted env seedDir = inr isSeedMounted →
     osutilIsMounted env bootDir = inr isBootMounted →
     (osutilIsMounted env dataDir = inl e →
      performs (generateMountsModeRun env)
        (basicLines isSeedMounted isBootMounted) [] (inl e)) ∧
     (∀ modeEnv,
        osutilIsMounted env dataDir = inr true →
        bootReadModeenv env (filepath.Join [dataDir; "system-data"]) = inr modeEnv →
        (osutilIsMounted env baseDir = inl e →
         performs (generateMountsModeRun env)
           (basicLines isSeedMounted isBootMounted) [] (inl e)) ∧
        (∀ isBaseMounted,
           osutilIsMounted env baseDir = inr isBaseMounted →
           osutilIsMounted env kernelDir = inl e →
           performs (generateMountsModeRun env)
             (basicLines isSeedMounted isBootMounted ++
              (if isBaseMounted then []
               else [snapTuple (runSource env (Base modeEnv)) baseDir]))
             [] (inl e)))).
Proof.
  split; [apply run_seed_probe_error|].
  split; [intros sm; apply run_boot_probe_error|].
  intros sm bm Hs Hb. split; [by apply run_data_probe_error|].
  intros modeEnv Hd Hm. split; [by apply (run_base_probe_error _ _ _ modeEnv)|].
  intros bb. by apply run_kernel_probe_error.
Qed.

Lemma run_probe_error_keeps_lines_witness :
  generateMountsModeRun sampleEnvBootProbeFails emptyWorld
  = ({| stdout := [snapTuple "/dev/disk/by-label/ubuntu-seed" "/run/mnt/ubuntu-seed"];
        modeenvFiles := ∅ |},
     inl (ErrOther "cannot read mountinfo")).
Proof.
  rewrite (proj1 (proj2 (run_probe_error_keeps_lines sampleEnvBootProbeFails
                           (ErrOther "cannot read mountinfo")))
             false eq_refl eq_refl emptyWorld).
  reflexivity.
Defined.

(** Whatever the collaborators answer, the run mode writes no modeenv, and
    its lines are taken in order from [runCandidates]. *)
Lemma run_shape (env : Env) :
  ∃ out r, performs (generateMountsModeRun env) out [] r ∧ out `sublist_of` runCandidates env.
Proof.
  unfold runCandidates.
  destruct (osutilIsMounted env seedDir) as [e|sm] eqn:Hs.
  { eexists _, _. split; [by apply run_seed_probe_error | apply sublist_nil_l]. }
  destruct (osutilIsMounted env bootDir) as [e|bm] eqn:Hb.
  { eexists _, _. split; [by apply run_boot_probe_error|].
    destruct sm; [apply sublist_nil_l | repeat constructor; apply sublist_nil_l]. }
  assert (∀ rest tail,
    rest `sublist_of` diskTuple dataDir :: tail →
    basicLines sm bm ++ rest
      `sublist_of` [diskTuple seedDir; diskTuple bootDir; diskTuple dataDir] ++ tail) as Hsub.
  { intros rest tail Hrest.
    apply (sublist_app _ [diskTuple seedDir; diskTuple bootDir] rest (_ :: tail)); [|done].
    destruct sm, bm; cbn; repeat constructor. }
  destruct (osutilIsMounted env dataDir) as [e|[|]] eqn:Hd.
  { eexists _, _. split; [by apply run_data_probe_error|].
    rewrite <- (app_nil_r (basicLines sm bm)). apply Hsub, sublist_nil_l. }
  2: { eexists _, _. split; [by apply run_data_not_mounted|].
       apply Hsub. constructor. apply sublist_nil_l. }
  destruct (bootReadModeenv env (filepath.Join [dataDir; "system-data"])) as [e|m] eqn:Hm.
  { eexists _, _. split; [by apply run_modeenv_unreadable|].
    rewrite <- (app_nil_r (basicLines sm bm)). apply Hsub, sublist_nil_l. }
  destruct (osutilIsMounted env baseDir) as [e|bb] eqn:Hbase.
  { eexists _, _. split; [by eapply run_base_probe_error|].
    rewrite <- (app_nil_r (basicLines sm bm)). apply Hsub, sublist_nil_l. }
  destruct (osutilIsMounted env kernelDir) as [e|bk] eqn:Hk.
  { eexists _, _. split; [by eapply run_kernel_probe_error|].
    apply Hsub. destruct bb; repeat constructor. }
  eexists _, _. split; [by eapply run_data_mounted|].
  apply Hsub. destruct bb, bk; cbn; repeat constructor.
Qed.

(** X10.  The run mode never writes a modeenv: whatever the collaborators
    answer, and whether it fails or not, it leaves the modeenv files as they
    are. *)
Theorem run_writes_no_modeenv (env : Env) (w : World) :
  modeenvFiles (generateMountsModeRun env w).1 = modeenvFiles w.
Proof.
  destruct (run_shape env) as (out & r & Hrun & _). by rewrite Hrun.
Qed.

Lemma runCandidates_targets (env : Env) : NoDup (mt_target <$> runCandidates env).
Proof.
  unfold runCandidates.
  destruct (bootReadModeenv env (filepath.Join [dataDir; "system-data"]));
    cbn [fmap list_fmap app mt_target diskTuple snapTuple];
    repeat (apply NoDup_cons; split;
            [rewrite ?elem_of_cons, elem_of_nil; intros H;
             repeat (destruct H as [H|H]; [discriminate H|]); exact H|]);
    apply NoDup_nil_2.
Qed.

(** X11.  The lines of one invocation of the run mode come in a fixed order
    (seed, boot, data, base, kernel), each at most once: whatever the
    collaborators answer, the lines written are a subsequence of
    [runCandidates], and no two of them have the same target. *)
Theorem run_lines_in_order (env : Env) (w : World) :
  emitted w (generateMountsModeRun env w).1 `sublist_of` runCandidates env ∧
  NoDup (mt_target <$> emitted w (generateMountsModeRun env w).1).
Proof.
  destruct (run_shape env) as (out & r & Hrun & Hsub).
  rewrite (proj1 (performs_emitted _ _ _ _ w Hrun)).
  split; [done|].
  eapply sublist_NoDup; [apply runCandidates_targets | by apply fmap_sublist].
Qed.

(** ** The sequencer and the run mode, from any mount table *)

Lemma elem_of_performMounts_table (out : list MountTuple) (table : gset string) (path : string) :
  path ∈ table → path ∈ performMounts out table.
Proof. intros H. apply elem_of_performMounts. by left. Qed.

Lemma elem_of_performMounts_line (out : list MountTuple) (table : gset string) (t : MountTuple) :
  t ∈ out → mt_target t ∈ performMounts out table.
Proof. intros H. apply elem_of_performMounts. right. by apply list_elem_of_fmap_2. Qed.

Lemma performMounts_nil (table : gset string) : performMounts [] table = table.
Proof. unfold performMounts. cbn. apply (right_id_L ∅ (∪)). Qed.

Lemma run_on_table (env : Env) (table : gset string) (modeEnv : Modeenv) :
  bootReadModeenv env (filepath.Join [dataDir; "system-data"]) = inr modeEnv →
  performs (generateMountsModeRun (withMounts env table)) (runLines env table modeEnv)
    [] (inr ()).
Proof.
  intros Hm. unfold runLines.
  destruct (bool_decide (dataDir ∈ table)) eqn:Hd.
  - apply (run_data_mounted (withMounts env table) _ _ _ _ modeEnv); try done.
    apply isMountedIn_elem. by apply bool_decide_eq_true in Hd.
  - apply (run_data_not_mounted (withMounts env table)); try done.
    apply isMountedIn_not_elem. by apply bool_decide_eq_false in Hd.
Qed.

(** After the mounts of an invocation, seed, boot and data are mounted. *)
Lemma runLines_basic (env : Env) (table : gset string) (modeEnv : Modeenv) (p : string) :
  p ∈ [seedDir; bootDir; dataDir] →
  p ∈ performMounts (runLines env table modeEnv) table.
Proof.
  rewrite !elem_of_cons, elem_of_nil. intros [->|[->|[->|[]]]].
  - destruct (bool_decide (seedDir ∈ table)) eqn:E.
    + apply elem_of_performMounts_table. by apply bool_decide_eq_true in E.
    + apply (elem_of_performMounts_line _ _ (diskTuple seedDir)).
      unfold runLines, basicLines. rewrite E, !elem_of_app, elem_of_cons. auto.
  - destruct (bool_decide (bootDir ∈ table)) eqn:E.
    + apply elem_of_performMounts_table. by apply bool_decide_eq_true in E.
    + apply (elem_of_performMounts_line _ _ (diskTuple bootDir)).
      unfold runLines, basicLines. rewrite E, !elem_of_app, !elem_of_cons. auto.
  - destruct (bool_decide (dataDir ∈ table)) eqn:E.
    + apply elem_of_performMounts_table. by apply bool_decide_eq_true in E.
    + apply (elem_of_performMounts_line _ _ (diskTuple dataDir)).
      unfold runLines. rewrite E, !elem_of_app, !elem_of_cons. auto.
Qed.

(** After the mounts of an invocation that saw data mounted, base and kernel
    are mounted. *)
Lemma runLines_snaps (env : Env) (table : gset string) (modeEnv : Modeenv) (p : string) :
  dataDir ∈ table → p ∈ [baseDir; kernelDir] →
  p ∈ performMounts (runLines env table modeEnv) table.
Proof.
  intros Hd. apply (bool_decide_eq_true_2 (dataDir ∈ table)) in Hd.
  rewrite !elem_of_cons, elem_of_nil. intros [->|[->|[]]].
  - destruct (bool_decide (baseDir ∈ table)) eqn:E.
    + apply elem_of_performMounts_table. by apply bool_decide_eq_true in E.
    + apply (elem_of_performMounts_line _ _ (snapTuple (runSource env (Base modeEnv)) baseDir)).
      unfold runLines. rewrite Hd, E, !elem_of_app, !elem_of_cons. auto.
  - destruct (bool_decide (kernelDir ∈ table)) eqn:E.
    + apply elem_of_performMounts_table. by apply bool_decide_eq_true in E.
    + apply (elem_of_performMounts_line _ _
               (snapTuple (runSource env (Kernel modeEnv)) kernelDir)).
      unfold runLines. rewrite Hd, E, !elem_of_app, !elem_of_cons.
      destruct (bool_decide (baseDir ∈ table)); auto.
Qed.

Lemma runLines_settled (env : Env) (table : gset string) (modeEnv : Modeenv) :
  (∀ p, p ∈ [seedDir; bootDir; dataDir; baseDir; kernelDir] → p ∈ table) →
  runLines env table modeEnv = [].
Proof.
  intros H. unfold runLines, basicLines.
  rewrite !bool_decide_eq_true_2; [done|apply H; rewrite !elem_of_cons; auto 10 ..].
Qed.

(** X12.  The run mode converges from any mount table.  With a modeenv that
    can be read and a sequencer that mounts every line it is given, whatever
    was mounted before the first invocation, the five mount points are
    mounted after the second invocation and the third writes nothing; none
    of the three fails. *)
Theorem run_mode_converges (env : Env) (table : gset string) (modeEnv : Modeenv) (w : World) :
  bootReadModeenv env (filepath.Join [dataDir; "system-data"]) = inr modeEnv →
  let call1 := generateMountsModeRun (withMounts env table) w in
  let table1 := performMounts (emitted w call1.1) table in
  let call2 := generateMountsModeRun (withMounts env table1) call1.1 in
  let table2 := performMounts (emitted call1.1 call2.1) table1 in
  let call3 := generateMountsModeRun (withMounts env table2) call2.1 in
  (emitted w call1.1 = runLines env table modeEnv ∧ call1.2 = inr ()) ∧
  (emitted call1.1 call2.1 = runLines env table1 modeEnv ∧ call2.2 = inr ()) ∧
  (∀ p, p ∈ [seedDir; bootDir; dataDir; baseDir; kernelDir] → p ∈ table2) ∧
  (emitted call2.1 call3.1 = [] ∧ call3.2 = inr ()).
Proof.
  intros Hm call1 table1 call2 table2 call3.
  destruct (performs_emitted _ _ _ _ w (run_on_table env table modeEnv Hm)) as [Ho1 Hr1].
  change (generateMountsModeRun (withMounts env table) w) with call1 in Ho1, Hr1.
  assert (table1 = performMounts (runLines env table modeEnv) table) as Ht1
    by (unfold table1; by rewrite Ho1).
  destruct (performs_emitted _ _ _ _ call1.1 (run_on_table env table1 modeEnv Hm))
    as [Ho2 Hr2].
  change (generateMountsModeRun (withMounts env table1) call1.1) with call2 in Ho2, Hr2.
  assert (table2 = performMounts (runLines env table1 modeEnv) table1) as Ht2
    by (unfold table2; by rewrite Ho2).
  assert (∀ p, p ∈ [seedDir; bootDir; dataDir; baseDir; kernelDir] → p ∈ table2) as Hall.
  { intros p Hp. rewrite Ht2.
    assert (p ∈ [seedDir; bootDir; dataDir] ∨ p ∈ [baseDir; kernelDir]) as [H|H]
      by (rewrite !elem_of_cons in *; tauto).
    - by apply runLines_basic.
    - apply runLines_snaps; [|done]. rewrite Ht1. apply runLines_basic.
      rewrite !elem_of_cons. auto. }
  destruct (performs_emitted _ _ _ _ call2.1 (run_on_table env table2 modeEnv Hm))
    as [Ho3 Hr3].
  change (generateMountsModeRun (withMounts env table2) call2.1) with call3 in Ho3, Hr3.
  rewrite (runLines_settled env table2 modeEnv Hall) in Ho3.
  done.
Qed.

Lemma run_mode_converges_witness :
  let table : gset string := {[ "/run/mnt/ubuntu-data"; "/run/mnt/kernel" ]} in
  let call1 := generateMountsModeRun (withMounts sampleEnv table) emptyWorld in
  let table1 := performMounts (emitted emptyWorld call1.1) table in
  let call2 := generateMountsModeRun (withMounts sampleEnv table1) call1.1 in
  emitted emptyWorld call1.1 =
    [snapTuple "/dev/disk/by-label/ubuntu-seed" "/run/mnt/ubuntu-seed";
     snapTuple "/dev/disk/by-label/ubuntu-boot" "/run/mnt/ubuntu-boot";
     snapTuple "/run/mnt/ubuntu-data/system-data/var/lib/snapd/snaps/core20_5.snap"
       "/run/mnt/base"] ∧
  emitted call1.1 call2.1 = [].
Proof.
  intros table call1 table1 call2.
  destruct (run_mode_converges sampleEnv table sampleModeenv emptyWorld eq_refl)
    as [[H1 _] [[H2 _] _]].
  fold call1 in H1, H2. fold table1 in H2. fold call2 in H2.
  split; [rewrite H1 | rewrite H2]; vm_compute; reflexivity.
Defined.

(** ** The sequencer and the install mode, from any mount table *)

Lemma install_step1 (env : Env) (recoverySystem : string) :
  osutilIsMounted env seedDir = inr false →
  performs (generateMountsModeInstall env recoverySystem)
    [snapTuple "/dev/disk/by-label/ubuntu-seed" seedDir] [] (inr ()).
Proof.
  intros Hs. unfold generateMountsModeInstall; cbv zeta.
  apply (performs_try_inr _ false _ _ _ _ Hs). apply performs_Fprintf.
Qed.

Lemma install_on_table (env : Env) (table : gset string) (recoverySystem : string)
    (snaps : list seedSnap) :
  loadSeed env recoverySystem = inr snaps →
  Forall (readable env) snaps →
  modeenvWriteError env (installModeenv recoverySystem) installRoot = None →
  performs (generateMountsModeInstall (withMounts env table) recoverySystem)
    (installLines env table snaps)
    (if bool_decide (seedDir ∈ table) && bool_decide (dataDir ∈ table)
     then [(installRoot, installModeenv recoverySystem)] else [])
    (inr ()).
Proof.
  intros Hseed Hsnaps Hwrite. unfold installLines.
  destruct (bool_decide (seedDir ∈ table)) eqn:Es; cbn [andb].
  2: { apply install_step1, isMountedIn_not_elem. by apply bool_decide_eq_false in Es. }
  apply bool_decide_eq_true in Es.
  apply (install_steps (withMounts env table) recoverySystem
           (bool_decide (baseDir ∈ table)) (bool_decide (kernelDir ∈ table))
           (bool_decide (snapdDir ∈ table)) _ (inr ()));
    [by apply isMountedIn_elem | done | done | done | |].
  - apply (install_step2 (withMounts env table) _ _ _ _ snaps);
      [exact Hseed | by apply (mountEssentialSnaps_readable (withMounts env table)) |].
    intros Hall.
    destruct (bool_decide (baseDir ∈ table)), (bool_decide (kernelDir ∈ table)),
      (bool_decide (snapdDir ∈ table)); try discriminate Hall.
    split; [apply (essentialLines_mounted (withMounts env table)) | done].
  - pose proof (install_step3 (withMounts env table) recoverySystem
                  (bool_decide (dataDir ∈ table)) eq_refl) as H3.
    cbn [modeenvWriteError withMounts] in H3. rewrite Hwrite in H3.
    by destruct (bool_decide (dataDir ∈ table)).
Qed.

Lemma essentialLine_elem_of (env : Env) (b k s : bool) (snaps : list seedSnap)
    (sn : seedSnap) (ty : snapType) (t : MountTuple) :
  sn ∈ snaps → essentialType env sn = inr ty →
  t ∈ essentialLine b k s sn ty → t ∈ essentialLines env b k s snaps.
Proof.
  intros Hsn Hty Ht. unfold essentialLines.
  apply list_elem_of_In, in_flat_map. exists sn.
  split; [by apply list_elem_of_In|]. rewrite Hty. by apply list_elem_of_In.
Qed.

Lemma essentialLines_nil (env : Env) (b k s : bool) (snaps : list seedSnap) :
  (∀ sn ty, sn ∈ snaps → essentialType env sn = inr ty → essentialLine b k s sn ty = []) →
  essentialLines env b k s snaps = [].
Proof.
  induction snaps as [|sn snaps IH]; intros H; [done|].
  unfold essentialLines in *. cbn [flat_map].
  rewrite IH by (intros sn' ty Hin; apply H; by right).
  destruct (essentialType env sn) as [|ty] eqn:Hty; [done|].
  rewrite (H sn ty); [done | by left | done].
Qed.

(** After the mounts of an invocation the seed partition is mounted. *)
Lemma installLines_seed (env : Env) (table : gset string) (snaps : list seedSnap) :
  seedDir ∈ performMounts (installLines env table snaps) table.
Proof.
  destruct (bool_decide (seedDir ∈ table)) eqn:E.
  - apply elem_of_performMounts_table. by apply bool_decide_eq_true in E.
  - apply (elem_of_performMounts_line _ _ (snapTuple "/dev/disk/by-label/ubuntu-seed" seedDir)).
    unfold installLines. rewrite E. by left.
Qed.

(** After the mounts of an invocation that saw the seed partition mounted,
    the data partition is mounted and so is the mount point of every
    essential snap of type base, kernel or snapd. *)
Lemma installLines_settles (env : Env) (table : gset string) (snaps : list seedSnap) :
  seedDir ∈ table →
  let table' := performMounts (installLines env table snaps) table in
  dataDir ∈ table' ∧
  essentialLines env (bool_decide (baseDir ∈ table')) (bool_decide (kernelDir ∈ table'))
    (bool_decide (snapdDir ∈ table')) snaps = [].
Proof.
  intros Hs table'.
  assert (installLines env table snaps =
          essentialLines env (bool_decide (baseDir ∈ table)) (bool_decide (kernelDir ∈ table))
            (bool_decide (snapdDir ∈ table)) snaps ++
          (if bool_decide (dataDir ∈ table) then [] else [tmpfsTuple])) as Hlines.
  { unfold installLines. by rewrite bool_decide_eq_true_2. }
  split.
  - destruct (bool_decide (dataDir ∈ table)) eqn:E.
    + apply elem_of_performMounts_table. by apply bool_decide_eq_true in E.
    + apply (elem_of_performMounts_line _ _ tmpfsTuple).
      rewrite Hlines, elem_of_app. right. by left.
  - apply essentialLines_nil. intros sn ty Hsn Hty.
    assert (∀ t, t ∈ essentialLine (bool_decide (baseDir ∈ table))
                       (bool_decide (kernelDir ∈ table))
                       (bool_decide (snapdDir ∈ table)) sn ty →
                 mt_target t ∈ table') as Hmounted.
    { intros t Ht. apply elem_of_performMounts_line.
      rewrite Hlines, elem_of_app. left. by eapply essentialLine_elem_of. }
    destruct ty; cbn [essentialLine] in *; try done.
    + destruct (bool_decide (kernelDir ∈ table)) eqn:E.
      * rewrite bool_decide_eq_true_2; [done|].
        apply elem_of_performMounts_table. by apply bool_decide_eq_true in E.
      * rewrite bool_decide_eq_true_2; [done|].
        apply (Hmounted (snapTuple (Path sn) kernelDir)). by left.
    + destruct (bool_decide (baseDir ∈ table)) eqn:E.
      * rewrite bool_decide_eq_true_2; [done|].
        apply elem_of_performMounts_table. by apply bool_decide_eq_true in E.
      * rewrite bool_decide_eq_true_2; [done|].
        apply (Hmounted (snapTuple (Path sn) baseDir)). by left.
    + destruct (bool_decide (snapdDir ∈ table)) eqn:E.
      * rewrite bool_decide_eq_true_2; [done|].
        apply elem_of_performMounts_table. by apply bool_decide_eq_true in E.
      * rewrite bool_decide_eq_true_2; [done|].
        apply (Hmounted (snapTuple (Path sn) snapdDir)). by left.
Qed.

(** X13.  The install mode converges from any mount table.  With a seed that
    loads, essential snaps that can be read, a modeenv that can be written
    and a sequencer that mounts every line it is given, whatever was mounted
    before the first invocation, the third invocation writes no line and
    leaves the modeenv of the install mode on the data partition; none of
    the three fails. *)
Theorem install_mode_converges (env : Env) (table : gset string) (recoverySystem : string)
    (snaps : list seedSnap) (w : World) :
  loadSeed env recoverySystem = inr snaps →
  Forall (readable env) snaps →
  modeenvWriteError env (installModeenv recoverySystem) installRoot = None →
  let call1 := generateMountsModeInstall (withMounts env table) recoverySystem w in
  let table1 := performMounts (emitted w call1.1) table in
  let call2 := generateMountsModeInstall (withMounts env table1) recoverySystem call1.1 in
  let table2 := performMounts (emitted call1.1 call2.1) table1 in
  let call3 := generateMountsModeInstall (withMounts env table2) recoverySystem call2.1 in
  (emitted w call1.1 = installLines env table snaps ∧ call1.2 = inr ()) ∧
  (emitted call1.1 call2.1 = installLines env table1 snaps ∧ call2.2 = inr ()) ∧
  (emitted call2.1 call3.1 = [] ∧ call3.2 = inr ()) ∧
  modeenvFiles call3.1 !! installRoot = Some (installModeenv recoverySystem).
Proof.
  intros Hseed Hsnaps Hwrite call1 table1 call2 table2 call3.
  pose proof (install_on_table env table recoverySystem snaps Hseed Hsnaps Hwrite) as E1.
  destruct (performs_emitted _ _ _ _ w E1) as [Ho1 Hr1].
  change (generateMountsModeInstall (withMounts env table) recoverySystem w)
    with call1 in Ho1, Hr1.
  assert (table1 = performMounts (installLines env table snaps) table) as Ht1
    by (unfold table1; by rewrite Ho1).
  pose proof (install_on_table env table1 recoverySystem snaps Hseed Hsnaps Hwrite) as E2.
  destruct (performs_emitted _ _ _ _ call1.1 E2) as [Ho2 Hr2].
  change (generateMountsModeInstall (withMounts env table1) recoverySystem call1.1)
    with call2 in Ho2, Hr2.
  assert (table2 = performMounts (installLines env table1 snaps) table1) as Ht2
    by (unfold table2; by rewrite Ho2).
  assert (seedDir ∈ table1) as Hs1 by (rewrite Ht1; apply installLines_seed).
  assert (seedDir ∈ table2) as Hs2 by (rewrite Ht2; by apply elem_of_performMounts_table).
  destruct (installLines_settles env table1 snaps Hs1) as [Hd2 He2]. rewrite <- Ht2 in Hd2, He2.
  pose proof (install_on_table env table2 recoverySystem snaps Hseed Hsnaps Hwrite) as E3.
  unfold installLines in E3.
  rewrite He2, !bool_decide_eq_true_2 in E3 by done. cbn [andb app] in E3.
  destruct (performs_emitted _ _ _ _ call2.1 E3) as [Ho3 Hr3].
  change (generateMountsModeInstall (withMounts env table2) recoverySystem call2.1)
    with call3 in Ho3, Hr3.
  split; [done|]. split; [done|]. split; [done|].
  unfold call3. rewrite E3. cbn. apply lookup_insert_eq.
Qed.

Lemma install_mode_converges_witness :
  let call1 := generateMountsModeInstall (withMounts sampleEnv ∅) "20231001" emptyWorld in
  let table1 := performMounts (emitted emptyWorld call1.1) ∅ in
  let call2 := generateMountsModeInstall (withMounts sampleEnv table1) "20231001" call1.1 in
  let table2 := performMounts (emitted call1.1 call2.1) table1 in
  let call3 := generateMountsModeInstall (withMounts sampleEnv table2) "20231001" call2.1 in
  emitted emptyWorld call1.1 = [snapTuple "/dev/disk/by-label/ubuntu-seed" "/run/mnt/ubuntu-seed"] ∧
  emitted call1.1 call2.1 =
    [snapTuple "/run/mnt/ubuntu-seed/snaps/snapd_1.snap" "/run/mnt/snapd";
     snapTuple "/run/mnt/ubuntu-seed/snaps/pc-kernel_10.snap" "/run/mnt/kernel";
     snapTuple "/run/mnt/ubuntu-seed/snaps/core20_5.snap" "/run/mnt/base";
     tmpfsTuple] ∧
  emitted call2.1 call3.1 = [] ∧
  modeenvFiles call3.1 !! "/run/mnt/ubuntu-data/system-data" = Some (installModeenv "20231001").
Proof.
  intros call1 table1 call2 table2 call3.
  assert (Forall (readable sampleEnv) (EssentialSnaps sampleSeed)) as Hsnaps
    by (repeat constructor; eexists; vm_compute; reflexivity).
  destruct (install_mode_converges sampleEnv ∅ "20231001" (EssentialSnaps sampleSeed)
              emptyWorld eq_refl Hsnaps eq_refl) as [[H1 _] [[H2 _] [[H3 _] H4]]].
  fold call1 in H1, H2, H3, H4. fold table1 in H2, H3, H4. fold call2 in H2, H3, H4.
  fold table2 in H3, H4. fold call3 in H3, H4.
  split; [rewrite H1; vm_compute; reflexivity|].
  split; [rewrite H2; vm_compute; reflexivity|].
  split; [exact H3 | exact H4].
Defined.

(** ** What the install mode writes *)

Lemma mountEssentialSnaps_silent (env : Env) (b k s : bool) (snaps : list seedSnap) :
  ∃ out r, performs (mountEssentialSnaps env b k s snaps) out [] r.
Proof.
  induction snaps as [|sn snaps (out & r & IH)].
  - eexists _, _. apply performs_ret.
  - destruct (essentialType env sn) as [e|ty] eqn:Hty.
    + eexists _, _. by apply mountEssentialSnaps_error.
    + eexists _, _. by apply (mountEssentialSnaps_step _ _ _ _ _ ty).
Qed.

Lemma install_step2_silent (env : Env) (recoverySystem : string) (b k s : bool) :
  ∃ out r,
    performs
      (when (negb b || negb k || negb s)
         (systemSeed ← try (seedOpen env seedDir recoverySystem);
          check (LoadAssertions systemSeed);;
          check (LoadMeta systemSeed);;
          mountEssentialSnaps env b k s (EssentialSnaps systemSeed)))
      out [] r.
Proof.
  destruct (Bool.bool_dec (negb b || negb k || negb s) true) as [Hsome|Hnone].
  2: { apply not_true_is_false in Hnone. rewrite Hnone. eexists _, _. apply performs_ret. }
  destruct (loadSeed env recoverySystem) as [e|snaps] eqn:Hseed.
  - eexists _, _. by apply install_step2_error.
  - destruct (mountEssentialSnaps_silent env b k s snaps) as (out & r & Hloop).
    exists out, r. apply (install_step2 _ _ _ _ _ snaps); [done | done | congruence].
Qed.

(** Whatever the collaborators answer, the install mode writes no modeenv,
    or it writes the one of the install mode, returns no error, and the
    probe has reported the seed and the data partition as mounted. *)
Lemma install_shape (env : Env) (recoverySystem : string) :
  ∃ out ws r,
    performs (generateMountsModeInstall env recoverySystem) out ws r ∧
    (ws = [] ∨
     (ws = [(installRoot, installModeenv recoverySystem)] ∧ r = inr () ∧
      osutilIsMounted env seedDir = inr true ∧ osutilIsMounted env dataDir = inr true)).
Proof.
  destruct (osutilIsMounted env seedDir) as [e|[|]] eqn:Hs.
  { eexists _, _, _. split; [|by left].
    unfold generateMountsModeInstall; cbv zeta. by apply performs_try_inl. }
  2: { eexists _, _, _. split; [by apply install_step1 | by left]. }
  destruct (osutilIsMounted env baseDir) as [e|b] eqn:Hb.
  { eexists _, _, _. split; [|by left].
    unfold generateMountsModeInstall; cbv zeta.
    apply (performs_try_inr _ true _ _ _ _ Hs); cbn [negb]. by apply performs_try_inl. }
  destruct (osutilIsMounted env kernelDir) as [e|k] eqn:Hk.
  { eexists _, _, _. split; [|by left].
    unfold generateMountsModeInstall; cbv zeta.
    apply (performs_try_inr _ true _ _ _ _ Hs); cbn [negb].
    apply (performs_try_inr _ b _ _ _ _ Hb). by apply performs_try_inl. }
  destruct (osutilIsMounted env snapdDir) as [e|s] eqn:Hsn.
  { eexists _, _, _. split; [|by left].
    unfold generateMountsModeInstall; cbv zeta.
    apply (performs_try_inr _ true _ _ _ _ Hs); cbn [negb].
    apply (performs_try_inr _ b _ _ _ _ Hb), (performs_try_inr _ k _ _ _ _ Hk).
    by apply performs_try_inl. }
  destruct (install_step2_silent env recoverySystem b k s) as (out1 & [e|[]] & Hstep2).
  { eexists _, _, _. split; [|by left].
    by apply (install_steps env recoverySystem b k s out1 (inl e) [] [] (inl e)). }
  destruct (osutilIsMounted env dataDir) as [e|d] eqn:Hd.
  { eexists _, _, _. split; [|by left].
    apply (install_steps env recoverySystem b k s out1 (inr ()) [] [] (inl e)); try done.
    by apply performs_try_inl. }
  eexists _, _, _. split.
  { apply (install_steps env recoverySystem b k s out1 (inr ())); try done.
    by apply install_step3. }
  destruct d; [|by left].
  destruct (modeenvWriteError env (installModeenv recoverySystem) installRoot);
    [by left | by right].
Qed.

(** X14.  The install mode writes the modeenv only at the end: an invocation
    leaves the modeenv files as they are, or the probe has reported the seed
    and the data partition as mounted, the invocation returns no error, and
    the one file it has written is the modeenv of the install mode with the
    recovery system it was called with, under the [system-data] directory of
    the data partition. *)
Theorem install_writes_modeenv_last (env : Env) (recoverySystem : string) (w : World) :
  modeenvFiles (generateMountsModeInstall env recoverySystem w).1 = modeenvFiles w ∨
  (osutilIsMounted env seedDir = inr true ∧
   osutilIsMounted env dataDir = inr true ∧
   (generateMountsModeInstall env recoverySystem w).2 = inr () ∧
   modeenvFiles (generateMountsModeInstall env recoverySystem w).1
   = <[installRoot := installModeenv recoverySystem]> (modeenvFiles w)).
Proof.
  destruct (install_shape env recoverySystem) as (out & ws & r & Hperf & [->|(-> & -> & Hs & Hd)]);
    rewrite Hperf; [by left | by right].
Qed.

(** X15.  Every line of the install mode is the line for the seed partition,
    a line without type for the base, kernel or snapd mount point, or the
    tmpfs line for the data partition. *)
Theorem install_lines_wellformed (env : Env) (recoverySystem : string) (w : World)
    (t : MountTuple) :
  t ∈ emitted w (generateMountsModeInstall env recoverySystem w).1 →
  t = snapTuple "/dev/disk/by-label/ubuntu-seed" seedDir ∨
  (mt_type t = None ∧ mt_target t ∈ [baseDir; kernelDir; snapdDir]) ∨
  t = tmpfsTuple.
Proof.
  revert t. apply Forall_forall, produces_emitted, install_produces.
  - by left.
  - intros _ p. right. left. split; [done|]. by left.
  - intros _ p. right. left. split; [done|]. right. by left.
  - intros _ p. right. left. split; [done|]. do 2 right. by left.
  - by do 2 right.
Qed.

Lemma install_lines_wellformed_witness :
  let env := withMounts sampleEnv {[ "/run/mnt/ubuntu-seed" ]} in
  let t := snapTuple "/run/mnt/ubuntu-seed/snaps/core20_5.snap" "/run/mnt/base" in
  t ∈ emitted emptyWorld (generateMountsModeInstall env "20231001" emptyWorld).1 ∧
  (t = snapTuple "/dev/disk/by-label/ubuntu-seed" seedDir ∨
   (mt_type t = None ∧ mt_target t ∈ [baseDir; kernelDir; snapdDir]) ∨
   t = tmpfsTuple).
Proof.
  intros env t.
  assert (t ∈ emitted emptyWorld (generateMountsModeInstall env "20231001" emptyWorld).1) as H.
  { replace (emitted emptyWorld (generateMountsModeInstall env "20231001" emptyWorld).1)
      with [snapTuple "/run/mnt/ubuntu-seed/snaps/snapd_1.snap" "/run/mnt/snapd";
            snapTuple "/run/mnt/ubuntu-seed/snaps/pc-kernel_10.snap" "/run/mnt/kernel";
            t; tmpfsTuple] by (vm_compute; reflexivity).
    rewrite !elem_of_cons. auto. }
  split; [exact H|]. exact (install_lines_wellformed env "20231001" emptyWorld t H).
Defined.
